(** * The New York Times best-seller scraper: model and properties

    A shallow embedding of [nyt-best-sellers.py].  The script resolves the
    date shown on the landing page ([get_main_date]), derives one page address
    per week ([scrape_best_seller], lines 54-57), fetches and parses each page
    (lines 58-91) and gathers the weekly results with [Pool.map] (lines
    99-101).

    Conventions of the model.
    - A Python [str] is a [string]; every character stands for one code point
      below 256.
    - A Python [int] is a [Z].
    - A call that may raise returns a [Result]; the exception is a [PyExn].
    - The two library boundaries that the script cannot see through are left
      open: the network (what a server answers, and after how long) and the
      HTML parser (which tree [BeautifulSoup] builds from the bytes).  The tree
      itself, and the searches the script runs over it, are modelled. *)

From Stdlib Require Import ZArith Lia Ascii String List Permutation.
From stdpp Require Import base numbers option list gmap strings pretty.

(** ** Exceptions and fallible computations *)

(** The exceptions the script can raise, named as Python names them. *)
Inductive PyExn : Type :=
| Exception_ (msg : string)   (* [raise Exception(f"Error response: ...")] *)
| Timeout                     (* [requests.exceptions.Timeout] *)
| ConnectionError             (* [requests.exceptions.ConnectionError] *)
| OverflowError               (* date arithmetic out of range *)
| ValueError                  (* [strptime] mismatch, [Pool(0)] *)
| IndexError                  (* [[...][0]] on an empty list *)
| AttributeError              (* [None.text] *)
| TypeError                   (* [None['src']] *)
| KeyError (key : string).    (* [tag['src']] without that attribute *)

Inductive Result (A : Type) : Type :=
| Returns (a : A)
| Raises (e : PyExn).
Arguments Returns {A} a.
Arguments Raises {A} e.

#[global] Instance Result_ret : MRet Result := λ A a, Returns a.
#[global] Instance Result_bind : MBind Result := λ A B f m,
  match m with
  | Returns a => f a
  | Raises e => Raises e
  end.

Definition raised {A} (m : Result A) : bool :=
  match m with Returns _ => false | Raises _ => true end.

(** The error taxonomy of the design: an exception is either a fetch error
    (the request did not produce a page) or a parse error (the page or the
    date did not have the expected shape). *)
Inductive ErrorClass : Type := FetchError | ParseError.

Definition error_class (e : PyExn) : ErrorClass :=
  match e with
  | Exception_ _ | Timeout | ConnectionError => FetchError
  | OverflowError | ValueError | IndexError | AttributeError | TypeError
  | KeyError _ => ParseError
  end.

(** ** Strings *)

Module Str.

(** [str.isspace] on code points below 256. *)
Definition isspace (c : ascii) : bool :=
  let n := nat_of_ascii c in
  ((9 <=? n) && (n <=? 13)) || ((28 <=? n) && (n <=? 32))
  || (n =? 133) || (n =? 160).

Fixpoint lstrip (s : string) : string :=
  match s with
  | String c s' => if isspace c then lstrip s' else s
  | EmptyString => EmptyString
  end.

Definition rstrip (s : string) : string :=
  String.rev (lstrip (String.rev s)).

(** [s.strip()] *)
Definition strip (s : string) : string := rstrip (lstrip s).

(** [sep.join(parts)] *)
Fixpoint join (sep : string) (parts : list string) : string :=
  match parts with
  | [] => ""
  | [p] => p
  | p :: rest => p +:+ sep +:+ join sep rest
  end.

End Str.

(** ** The parsed document (BeautifulSoup's tree) *)

#[local] Set Warnings "-register-all".

(** An attribute value is a string, or a list of tokens for the multi-valued
    attributes such as [class]. *)
Inductive AttrValue : Type :=
| AttrStr (s : string)
| AttrList (tokens : list string).

(** A node of the tree.  [NavigableString] stands for the strings that [.text]
    collects, [Comment] for the string kinds that it skips. *)
Inductive PageElement : Type :=
| Tag (name : string) (attrs : gmap string AttrValue)
      (contents : list PageElement)
| NavigableString (s : string)
| Comment (s : string).

(** [element.descendants]: every node below [element], in document order. *)
Fixpoint descendants (element : PageElement) : list PageElement :=
  match element with
  | Tag _ _ contents =>
      (fix walk (l : list PageElement) : list PageElement :=
         match l with
         | [] => []
         | child :: l' => child :: descendants child ++ walk l'
         end) contents
  | NavigableString _ | Comment _ => []
  end.

(** What a search asks of one attribute: [True] (any value) or a string. *)
Inductive AttrFilter : Type :=
| AnyValue
| Exactly (s : string).

Definition matches_value (markup : option AttrValue) (f : AttrFilter) : bool :=
  match f with
  | AnyValue => bool_decide (is_Some markup)
  | Exactly s =>
      match markup with
      | None => bool_decide (s = "")
      | Some (AttrStr v) => bool_decide (v = s)
      | Some (AttrList tokens) =>
          existsb (λ t, bool_decide (t = s)) tokens
          || bool_decide (Str.join " " tokens = s)
      end
  end.

Definition search_tag (name : string) (filters : list (string * AttrFilter))
    (element : PageElement) : bool :=
  match element with
  | Tag n attrs _ =>
      bool_decide (n = name)
      && forallb (λ kf, matches_value (attrs !! kf.1) kf.2) filters
  | NavigableString _ | Comment _ => false
  end.

(** [element.find_all(name, attrs=filters)] *)
Definition find_all (element : PageElement) (name : string)
    (filters : list (string * AttrFilter)) : list PageElement :=
  List.filter (search_tag name filters) (descendants element).

(** [element.find(name, attrs=filters)]: the first match, or [None]. *)
Definition find (element : PageElement) (name : string)
    (filters : list (string * AttrFilter)) : option PageElement :=
  head (find_all element name filters).

(** [class_='c'] is the filter [attrs={'class': 'c'}]. *)
Definition class_ (c : string) : list (string * AttrFilter) :=
  [("class", Exactly c)].

Definition own_string (element : PageElement) : option string :=
  match element with
  | NavigableString s => Some s
  | Tag _ _ _ | Comment _ => None
  end.

(** [tag.text]: the strings below the tag, joined. *)
Definition tag_text (element : PageElement) : string :=
  Str.join "" (omap own_string (descendants element)).

(** [found.text] where [found] is the result of [find]: [None] has no
    attribute [text]. *)
Definition get_text (found : option PageElement) : Result string :=
  match found with
  | Some element => Returns (tag_text element)
  | None => Raises AttributeError
  end.

(** [found[key]] where [found] is the result of [find]. *)
Definition getitem (found : option PageElement) (key : string)
    : Result AttrValue :=
  match found with
  | Some (Tag _ attrs _) =>
      match attrs !! key with
      | Some v => Returns v
      | None => Raises (KeyError key)
      end
  | Some (NavigableString _) | Some (Comment _) | None => Raises TypeError
  end.

(** [l[0]] *)
Definition first_item {A} (l : list A) : Result A :=
  match l with
  | x :: _ => Returns x
  | [] => Raises IndexError
  end.

(** ** Dates ([datetime] and [timedelta]) *)

Record datetime : Type := Datetime {
  year : Z; month : Z; day : Z;
  hour : Z; minute : Z; second : Z; microsecond : Z
}.

Module Calendar.
Local Open Scope Z_scope.

Definition MAXORDINAL : Z := 3652059.   (* [date(9999, 12, 31).toordinal()] *)
Definition DI400Y : Z := 146097.
Definition DI100Y : Z := 36524.
Definition DI4Y : Z := 1461.

Definition is_leap (y : Z) : bool :=
  (y mod 4 =? 0) && (negb (y mod 100 =? 0) || (y mod 400 =? 0)).

Definition DAYS_IN_MONTH (m : Z) : Z :=
  match m with
  | 1 => 31 | 2 => 28 | 3 => 31 | 4 => 30 | 5 => 31 | 6 => 30
  | 7 => 31 | 8 => 31 | 9 => 30 | 10 => 31 | 11 => 30 | 12 => 31
  | _ => -1
  end.

Definition DAYS_BEFORE_MONTH (m : Z) : Z :=
  match m with
  | 1 => 0 | 2 => 31 | 3 => 59 | 4 => 90 | 5 => 120 | 6 => 151
  | 7 => 181 | 8 => 212 | 9 => 243 | 10 => 273 | 11 => 304 | 12 => 334
  | _ => -1
  end.

Definition days_in_month (y m : Z) : Z :=
  if (m =? 2) && is_leap y then 29 else DAYS_IN_MONTH m.

Definition days_before_year (y : Z) : Z :=
  let y := y - 1 in y * 365 + y / 4 - y / 100 + y / 400.

Definition days_before_month (y m : Z) : Z :=
  DAYS_BEFORE_MONTH m + (if (m >? 2) && is_leap y then 1 else 0).

Definition ymd2ord (y m d : Z) : Z :=
  days_before_year y + days_before_month y m + d.

(** The inverse of [ymd2ord], as [datetime] computes it. *)
Definition ord2ymd (n : Z) : Z * Z * Z :=
  let n := n - 1 in
  let n400 := n / DI400Y in let n := n mod DI400Y in
  let y := n400 * 400 + 1 in
  let n100 := n / DI100Y in let n := n mod DI100Y in
  let n4 := n / DI4Y in let n := n mod DI4Y in
  let n1 := n / 365 in let n := n mod 365 in
  let y := y + n100 * 100 + n4 * 4 + n1 in
  if (n1 =? 4) || (n100 =? 4) then (y - 1, 12, 31)
  else
    let leapyear := (n1 =? 3) && (negb (n4 =? 24) || (n100 =? 3)) in
    let m := Z.shiftr (n + 50) 5 in
    let preceding :=
      DAYS_BEFORE_MONTH m + (if (m >? 2) && leapyear then 1 else 0) in
    if preceding >? n then
      let m := m - 1 in
      let preceding :=
        preceding
        - (DAYS_IN_MONTH m + (if (m =? 2) && leapyear then 1 else 0)) in
      (y, m, n - preceding + 1)
    else (y, m, n - preceding + 1).

(** The dates a [datetime] can hold. *)
Definition valid_ymd (y m d : Z) : bool :=
  (1 <=? y) && (y <=? 9999) && (1 <=? m) && (m <=? 12)
  && (1 <=? d) && (d <=? days_in_month y m).

(** Month and day from the day of the year, as the end of [ord2ymd]. *)
Definition month_day (leapyear : bool) (n : Z) : Z * Z :=
  let m := Z.shiftr (n + 50) 5 in
  let preceding :=
    DAYS_BEFORE_MONTH m + (if (m >? 2) && leapyear then 1 else 0) in
  if preceding >? n then
    let m := m - 1 in
    let preceding :=
      preceding - (DAYS_IN_MONTH m + (if (m =? 2) && leapyear then 1 else 0)) in
    (m, n - preceding + 1)
  else (m, n - preceding + 1).

Definition month_day_ok (leapyear : bool) (k : nat) : bool :=
  let '(m, d) := month_day leapyear (Z.of_nat k) in
  (1 <=? m) && (m <=? 12) && (1 <=? d)
  && (d <=? DAYS_IN_MONTH m + (if (m =? 2) && leapyear then 1 else 0))
  && (DAYS_BEFORE_MONTH m + (if (m >? 2) && leapyear then 1 else 0) + d
      =? Z.of_nat k + 1).

End Calendar.

Definition valid_date (date : datetime) : bool :=
  Calendar.valid_ymd (year date) (month date) (day date).

(** [date.toordinal()] *)
Definition toordinal (date : datetime) : Z :=
  Calendar.ymd2ord (year date) (month date) (day date).

(** [timedelta(days=days)]: the number of days, or [OverflowError] beyond
    the range of a [timedelta]. *)
Definition timedelta (days : Z) : Result Z :=
  if (Z.abs days <=? 999999999)%Z then Returns days
  else Raises OverflowError.

(** [date - delta]: the same time of day, [delta] days earlier;
    [OverflowError] when that day is outside years 1..9999. *)
Definition datetime_sub (date : datetime) (delta : Z) : Result datetime :=
  let ordinal := (toordinal date - delta)%Z in
  if ((0 <? ordinal) && (ordinal <=? Calendar.MAXORDINAL))%Z then
    let '(y, m, d) := Calendar.ord2ymd ordinal in
    Returns (Datetime y m d (hour date) (minute date) (second date)
                      (microsecond date))
  else Raises OverflowError.

(** [str(n).zfill(width)] for a non-negative [n]. *)
Definition zfill (width : nat) (n : Z) : string :=
  let digits := pretty n in
  String.concat "" (replicate (width - String.length digits) "0") +:+ digits.

(** [date.strftime("%Y/%m/%d")]: month and day on two digits; the year as
    the C library (glibc) writes it for [%Y], in decimal without padding, so
    on four digits from year 1000 on and on fewer below. *)
Definition strftime_Ymd (date : datetime) : string :=
  pretty (year date) +:+ "/" +:+ zfill 2 (month date) +:+ "/"
  +:+ zfill 2 (day date).

(** [datetime.strptime(s, '%B %d, %Y')].  The format compiles to the regular
    expression [(month name)\s+(day),\s+(\d\d\d\d)], matched without regard
    to case against the whole of [s]; the day is one of [3[0-1]], [[1-2]\d],
    [0[1-9]], [[1-9]].  A text that does not match, or that names a day that
    does not exist, raises [ValueError]. *)
Module Strptime.

Definition month_names : list string :=
  ["january"; "february"; "march"; "april"; "may"; "june"; "july";
   "august"; "september"; "october"; "november"; "december"].

Definition lower (c : ascii) : ascii :=
  let n := nat_of_ascii c in
  if (65 <=? n) && (n <=? 90) then ascii_of_nat (n + 32) else c.

Definition is_digit (c : ascii) : bool :=
  let n := nat_of_ascii c in (48 <=? n) && (n <=? 57).

Definition digit (c : ascii) : Z := Z.of_nat (nat_of_ascii c) - 48.

(** [name] read at the start of [s], whatever the case: what follows it. *)
Fixpoint after_name (name s : string) : option string :=
  match name, s with
  | EmptyString, _ => Some s
  | String a name', String c s' =>
      if Ascii.eqb a (lower c) then after_name name' s' else None
  | String _ _, EmptyString => None
  end.

(** The month (1..12) named at the start of [s], and what follows. *)
Fixpoint read_month (names : list string) (number : Z) (s : string)
    : option (Z * string) :=
  match names with
  | [] => None
  | name :: names' =>
      match after_name name s with
      | Some rest => Some (number, rest)
      | None => read_month names' (number + 1)%Z s
      end
  end.

(** [\s+]: at least one blank, and all that follow. *)
Definition read_blanks (s : string) : option string :=
  match s with
  | String c _ => if Str.isspace c then Some (Str.lstrip s) else None
  | EmptyString => None
  end.

(** The day followed by the comma. *)
Definition read_day (s : string) : option (Z * string) :=
  match s with
  | String a (String b rest) =>
      if Ascii.eqb b "," then
        if is_digit a && negb (Ascii.eqb a "0") then Some (digit a, rest)
        else None
      else if (Ascii.eqb a "3" && (Ascii.eqb b "0" || Ascii.eqb b "1"))
              || ((Ascii.eqb a "1" || Ascii.eqb a "2") && is_digit b)
              || (Ascii.eqb a "0" && is_digit b && negb (Ascii.eqb b "0"))
      then
        match rest with
        | String c rest' =>
            if Ascii.eqb c "," then Some (10 * digit a + digit b, rest')%Z
            else None
        | EmptyString => None
        end
      else None
  | _ => None
  end.

(** [\d\d\d\d] and then the end of the text. *)
Definition read_year (s : string) : option Z :=
  match s with
  | String a (String b (String c (String d EmptyString))) =>
      if is_digit a && is_digit b && is_digit c && is_digit d then
        Some (1000 * digit a + 100 * digit b + 10 * digit c + digit d)%Z
      else None
  | _ => None
  end.

Definition parse (s : string) : option datetime :=
  '(m, s1) ← read_month month_names 1%Z s;
  s2 ← read_blanks s1;
  '(d, s3) ← read_day s2;
  s4 ← read_blanks s3;
  y ← read_year s4;
  if Calendar.valid_ymd y m d then Some (Datetime y m d 0 0 0 0) else None.

End Strptime.

Definition strptime_B_d_Y (s : string) : Result datetime :=
  match Strptime.parse s with
  | Some date => Returns date
  | None => Raises ValueError
  end.

(** ** The records the scraper builds *)

(** [{'position': ..., 'title': ..., 'description': ..., 'image_url': ...}] *)
Record Book : Type := {
  position : Z;
  title : string;
  description : string;
  image_url : AttrValue
}.

(** [{'category': ..., 'books': [...]}] *)
Record Category : Type := {
  category : string;
  books : list Book
}.

(** [{'week': ..., 'data': [...]}] *)
Record BestSeller : Type := {
  week : Z;
  data : list Category
}.

(** ** Extraction (lines 62-88 of [scrape_best_seller]) *)

(** [for x in xs: acc.append(body(x))]: the list once the loop is over, or
    the first exception, which ends the loop. *)
Fixpoint for_append {X Y} (body : X → Result Y) (xs : list X) (acc : list Y)
    : Result (list Y) :=
  match xs with
  | [] => mret acc
  | x :: rest =>
      y ← body x;
      for_append body rest (acc ++ [y])
  end.

(** [enumerate(xs, start)] *)
Fixpoint enumerate {X} (xs : list X) (start : Z) : list (Z * X) :=
  match xs with
  | [] => []
  | x :: rest => (start, x) :: enumerate rest (start + 1)
  end.

(** Line 62: the first [div] that carries the attribute [itemscope]. *)
Definition container (soup : PageElement) : Result PageElement :=
  first_item (find_all soup "div" [("itemscope", AnyValue)]).

(** Line 63 *)
Definition category_blocks (div_elements : PageElement) : list PageElement :=
  find_all div_elements "div" (class_ "css-v2kl5d").

(** Line 69 *)
Definition item_blocks (category : PageElement) : list PageElement :=
  find_all category "li" (class_ "css-1mr03gh").

(** Lines 72-81: the body of the loop over the books. *)
Definition scrape_book (position : Z) (book_element : PageElement)
    : Result Book :=
  h3_text ← get_text (find book_element "h3" (class_ "css-i1z3c1"));
  let title := Str.strip h3_text in
  p_text ← get_text (find book_element "p" (class_ "css-5yxv3r"));
  let description := Str.strip p_text in
  image_url ← getitem (find book_element "img" []) "src";
  mret {| position := position; title := title;
          description := description; image_url := image_url |}.

(** Lines 71-83: [for position, book_element in enumerate(book_elements,
    start=1)], each turn appending to [books_data]. *)
Definition scrape_books (book_elements : list PageElement)
    (books_data : list Book) : Result (list Book) :=
  for_append (λ pe, scrape_book pe.1 pe.2) (enumerate book_elements 1)
             books_data.

(** Lines 66-88: the body of the loop over the categories. *)
Definition scrape_category (category : PageElement) : Result Category :=
  let books_data := [] in
  category_name ← get_text (find category "h2" []);
  let book_elements := item_blocks category in
  books_data ← scrape_books book_elements books_data;
  mret {| category := category_name; books := books_data |}.

(** Lines 65-88: [for category in category_elements], each turn appending
    to [best_seller['data']]. *)
Definition scrape_categories (category_elements : list PageElement)
    (data : list Category) : Result (list Category) :=
  for_append scrape_category category_elements data.

(** Lines 62-88: the list that ends up in [best_seller['data']]. *)
Definition extract (soup : PageElement) : Result (list Category) :=
  div_elements ← container soup;
  let category_elements := category_blocks div_elements in
  scrape_categories category_elements [].

(** ** The network and the two requests *)


Record Response : Type := {
  status_code : Z;
  content : string;   (* the body as received *)
  text : string       (* the body decoded *)
}.

(** What happens to a request: the server cannot be reached, or it sends
    [response], the client waiting [waits] units of time in turn: first for
    the connection, then for each piece of the answer. *)
Inductive Exchange : Type :=
| Answered (waits : list Z) (response : Response)
| Unreachable.

(** The longest that the client waits for the server in an exchange. *)
Definition latency (exchange : Exchange) : Z :=
  match exchange with
  | Answered waits _ => foldr Z.max 0%Z waits
  | Unreachable => 0%Z
  end.

(** The answer of an exchange; without an answer there is no status and no
    body. *)
Definition answer (exchange : Exchange) : Response :=
  match exchange with
  | Answered _ response => response
  | Unreachable => {| status_code := 0; content := ""; text := "" |}
  end.

(** What [requests.get] gives for an exchange: [timeout] bounds each wait,
    not their sum. *)
Definition received (exchange : Exchange) (timeout : Z) : Result Response :=
  match exchange with
  | Answered waits response =>
      if existsb (λ wait, (timeout <? wait)%Z) waits then Raises Timeout
      else Returns response
  | Unreachable => Raises ConnectionError
  end.

(** One call of [requests.get]. *)
Record Request : Type := {
  url : string;
  timeout : Z
}.

(** A computation that talks to the network: the requests it sent, in order,
    and how it ended. *)
Record IO (A : Type) : Type := Run {
  requests : list Request;
  outcome : Result A
}.
Arguments Run {A} requests outcome.
Arguments requests {A} _.
Arguments outcome {A} _.

#[global] Instance IO_ret : MRet IO := λ A a, Run [] (Returns a).
#[global] Instance IO_bind : MBind IO := λ A B f m,
  match outcome m with
  | Returns a => Run (requests m ++ requests (f a)) (outcome (f a))
  | Raises e => Run (requests m) (Raises e)
  end.

Definition lift {A} (r : Result A) : IO A := Run [] r.

Section Scraper.

(** The world outside the script. *)
Variable network : string → Exchange.
Variable html_parser : string → list PageElement.

(** [requests.get(url, timeout=timeout)] *)
Definition requests_get (url : string) (timeout : Z) : IO Response :=
  Run [{| url := url; timeout := timeout |}] (received (network url) timeout).

(** [BeautifulSoup(content, "html.parser")] *)
Definition BeautifulSoup (content : string) : PageElement :=
  Tag "[document]" ∅ (html_parser content).

(** [f"Error response: {response.status_code}, {response.text}"] *)
Definition error_response (response : Response) : PyExn :=
  Exception_ ("Error response: " +:+ pretty (status_code response) +:+ ", "
              +:+ text response).

(** Lines 19-29 *)
Definition get_main_date : IO datetime :=
  let url := "https://www.nytimes.com/books/best-sellers" in
  response ← requests_get url 5;
  if (status_code response =? 200)%Z then
    let soup := BeautifulSoup (content response) in
    time_elements ← lift (get_text (find soup "time" (class_ "css-6068ga")));
    time_elements ← lift (strptime_B_d_Y time_elements);
    mret time_elements
  else lift (Raises (error_response response)).

(** Lines 54-57: the address of the page of [week] weeks before [date]. *)
Definition build_url (week : Z) (date : datetime) : Result string :=
  delta ← timedelta (7 * week);
  weeks_back ← datetime_sub date delta;
  let formatted_date := strftime_Ymd weeks_back in
  mret ("https://www.nytimes.com/books/best-sellers/" +:+ formatted_date
        +:+ "/").

(** Lines 49-91 *)
Definition scrape_best_seller (week : Z) (date : datetime) : IO BestSeller :=
  url ← lift (build_url week date);
  response ← requests_get url 5;
  if (status_code response =? 200)%Z then
    let soup := BeautifulSoup (content response) in
    data ← lift (extract soup);
    mret {| week := week; data := data |}
  else lift (Raises (error_response response)).

End Scraper.

(** ** [multiprocessing.Pool.map] *)

(** [pool.map(func, iterable)] cuts [iterable] into chunks, hands the chunks
    to the worker processes, and stores each chunk's results as they come
    back.  Which worker runs which chunk, and the order in which the chunks
    come back, is not decided by the program: the model takes that order as
    an argument ([completion], a list of chunk numbers). *)
Module Pool.
Section Map.

Context {A B : Type}.

(** [Pool._map_async]: the chunk size for [length] items. *)
Definition get_chunksize (length processes : nat) : nat :=
  if (length =? 0)%nat then 0%nat
  else
    let chunksize := (length / (processes * 4))%nat in
    let extra := (length mod (processes * 4))%nat in
    if (extra =? 0)%nat then chunksize else S chunksize.

(** [Pool._get_tasks]: slices of [size] items until a slice is empty; the
    loop runs at most [fuel] times. *)
Fixpoint get_tasks (size : nat) (it : list A) (fuel : nat) : list (list A) :=
  match fuel with
  | O => []
  | S fuel' =>
      match take size it with
      | [] => []
      | x => x :: get_tasks size (drop size it) fuel'
      end
  end.

(** [mapstar]: a worker runs [list(map(func, chunk))]; the first exception
    ends the chunk. *)
Fixpoint mapstar (func : A → Result B) (chunk : list A) : Result (list B) :=
  match chunk with
  | [] => mret []
  | x :: rest =>
      y ← func x;
      ys ← mapstar func rest;
      mret (y :: ys)
  end.

(** The state of a [MapResult]: [_value] is the list of slots, or the
    exception once a chunk has failed. *)
Record MapResult : Type := {
  _success : bool;
  _value : Result (list (option B));
  _chunksize : nat;
  _number_left : Z;
  _ready : bool
}.

(** [MapResult.__init__] *)
Definition MapResult_init (chunksize length : nat) : MapResult :=
  if (chunksize =? 0)%nat then
    {| _success := true; _value := Returns (replicate length None);
       _chunksize := chunksize; _number_left := 0; _ready := true |}
  else
    {| _success := true; _value := Returns (replicate length None);
       _chunksize := chunksize;
       _number_left :=
         Z.of_nat (length / chunksize
                   + (if (length mod chunksize =? 0)%nat then 0 else 1))%nat;
       _ready := false |}.

(** [value[start:stop] = result] *)
Definition assign_slice {X} (value : list X) (start stop : nat)
    (result : list X) : list X :=
  take start value ++ result ++ drop (Nat.max start stop) value.

(** [MapResult._set(i, success_result)] *)
Definition _set (i : nat) (success_result : Result (list B))
    (self : MapResult) : MapResult :=
  let number_left := (_number_left self - 1)%Z in
  let ready := _ready self || (number_left =? 0)%Z in
  match success_result, _success self, _value self with
  | Returns result, true, Returns value =>
      {| _success := true;
         _value := Returns (assign_slice value (i * _chunksize self)
                              ((i + 1) * _chunksize self) (Some <$> result));
         _chunksize := _chunksize self;
         _number_left := number_left; _ready := ready |}
  | Raises e, true, _ =>
      {| _success := false; _value := Raises e;
         _chunksize := _chunksize self;
         _number_left := number_left; _ready := ready |}
  | _, _, _ =>
      {| _success := _success self; _value := _value self;
         _chunksize := _chunksize self;
         _number_left := number_left; _ready := ready |}
  end.

(** [MapResult.get()]: [None] while the result is not ready (the call
    blocks); afterwards the list, or the stored exception raised again. *)
Definition get (self : MapResult) : option (Result (list (option B))) :=
  if _ready self then Some (_value self) else None.

(** One chunk comes back from a worker. *)
Definition deliver (func : A → Result B) (task_batches : list (list A))
    (self : MapResult) (i : nat) : MapResult :=
  match task_batches !! i with
  | Some chunk => _set i (mapstar func chunk) self
  | None => self
  end.

(** [Pool(processes).map(func, iterable)], the chunks coming back in the
    order [completion]. *)
Definition map (processes : nat) (completion : list nat)
    (func : A → Result B) (iterable : list A)
    : option (Result (list (option B))) :=
  if (processes <? 1)%nat then Some (Raises ValueError)
  else
    let chunksize := get_chunksize (length iterable) processes in
    let task_batches := get_tasks chunksize iterable (S (length iterable)) in
    let result := MapResult_init chunksize (length iterable) in
    get (foldl (deliver func task_batches) result completion).

(** The number of chunks of a call. *)
Definition chunk_count (processes : nat) (iterable : list A) : nat :=
  length (get_tasks (get_chunksize (length iterable) processes) iterable
                    (S (length iterable))).

(** Every chunk comes back exactly once. *)
Definition complete (processes : nat) (iterable : list A)
    (completion : list nat) : Prop :=
  completion ≡ₚ seq 0 (chunk_count processes iterable).

End Map.
End Pool.

(** ** The pipeline (lines 99-101) *)

Section Pipeline.

Variable network : string → Exchange.
Variable html_parser : string → list PageElement.

(** [partial(scrape_best_seller, date=current_date)], as a worker runs it. *)
Definition task (current_date : datetime) (week : Z) : Result BestSeller :=
  outcome (scrape_best_seller network html_parser week current_date).

(** [with Pool(num_processes) as pool: pool.map(partial(scrape_best_seller,
    date=current_date), weeks)] *)
Definition run (current_date : datetime) (weeks : list Z)
    (num_processes : nat) (completion : list nat)
    : option (Result (list (option BestSeller))) :=
  Pool.map num_processes completion (task current_date) weeks.

(** [list(range(105))] *)
Definition all_weeks : list Z := Z.of_nat <$> seq 0 105.

(** Lines 95-101: the date first, then the 105 weeks. *)
Definition main (cpu_count : nat) (completion : list nat)
    : option (Result (list (option BestSeller))) :=
  match outcome (get_main_date network html_parser) with
  | Returns current_date => run current_date all_weeks cpu_count completion
  | Raises e => Some (Raises e)
  end.

End Pipeline.

(** ** What the pages must contain *)

Definition absent {X} (found : option X) : bool :=
  match found with None => true | Some _ => false end.

(** A category block without a heading element. *)
Definition lacks_heading (category : PageElement) : bool :=
  absent (find category "h2" []).

(** An item block without its title, description or image element. *)
Definition lacks_part (item : PageElement) : bool :=
  absent (find item "h3" (class_ "css-i1z3c1"))
  || absent (find item "p" (class_ "css-5yxv3r"))
  || absent (find item "img" []).

(** An item block whose first image element has no [src] attribute. *)
Definition image_lacks_src (item : PageElement) : bool :=
  match find item "img" [] with
  | Some (Tag _ attrs _) => absent (attrs !! "src")
  | _ => false
  end.

(** A document without the container, or with a category block that has no
    heading or holds an item for which [item_fails]. *)
Definition page_incomplete (item_fails : PageElement → bool)
    (soup : PageElement) : bool :=
  match find_all soup "div" [("itemscope", AnyValue)] with
  | [] => true
  | div_elements :: _ =>
      existsb (λ category,
                 lacks_heading category
                 || existsb item_fails (item_blocks category))
              (category_blocks div_elements)
  end.

(** The record read from the item block at rank [rank]. *)
Definition book_of (rank : Z) (item : PageElement) (b : Book) : Prop :=
  ∃ h3 p name attrs contents,
    find item "h3" (class_ "css-i1z3c1") = Some h3
    ∧ find item "p" (class_ "css-5yxv3r") = Some p
    ∧ find item "img" [] = Some (Tag name attrs contents)
    ∧ attrs !! "src" = Some (image_url b)
    ∧ position b = rank
    ∧ title b = Str.strip (tag_text h3)
    ∧ description b = Str.strip (tag_text p).

(** The record read from a category block: its heading, and its item blocks
    one by one, ranked from 1. *)
Definition category_of (block : PageElement) (c : Category) : Prop :=
  ∃ h2,
    find block "h2" [] = Some h2
    ∧ category c = tag_text h2
    ∧ Forall2 (λ pe b, book_of pe.1 pe.2 b)
              (enumerate (item_blocks block) 1) (books c).

(** The ranks 1, 2, ..., n. *)
Definition ranks (n : nat) : list Z := Z.of_nat <$> seq 1 n.

(** ** Reading an address back *)

(** The number written by a string of decimal digits. *)
Fixpoint read_digits (s : string) (acc : Z) : option Z :=
  match s with
  | EmptyString => Some acc
  | String c s' =>
      if Strptime.is_digit c then
        read_digits s' (10 * acc + Strptime.digit c)%Z
      else None
  end.

Definition zfill_ok (width : nat) (k : nat) : bool :=
  let field := zfill width (Z.of_nat k) in
  (String.length field =? width)%nat
  && match read_digits field 0 with
     | Some n => (n =? Z.of_nat k)%Z
     | None => false
     end.

(** [%Y] writes the year as it is, without padding: the digits read back
    as the year, there is no leading zero, and from year 1000 on there are
    four of them. *)
Definition year_ok (k : nat) : bool :=
  let field := pretty (Z.of_nat k) in
  match read_digits field 0 with
  | Some n => (n =? Z.of_nat k)%Z
  | None => false
  end
  && match field with
     | String "0" (String _ _) => false
     | _ => true
     end
  && (String.length field =?
      if (k <? 10)%nat then 1 else if (k <? 100)%nat then 2
      else if (k <? 1000)%nat then 3 else 4)%nat.

(** ** The state of a call of [Pool.map] *)

(** The state of the result once the chunks [done] have come back, for the
    items [l] cut in chunks of [c]: the slots of these chunks hold the
    results and the other slots are empty, or a chunk has failed and the
    exception of one of the items is stored. *)
Definition delivered {A B} (func : A → Result B) (l : list A) (c : nat)
    (done : list nat) (self : Pool.MapResult (B := B)) : Prop :=
  let n := length (Pool.get_tasks c l (S (length l))) in
  Pool._chunksize self = c
  ∧ Pool._number_left self = (Z.of_nat n - Z.of_nat (length done))%Z
  ∧ Pool._ready self = bool_decide (n ≤ length done)
  ∧ match Pool._value self with
    | Returns value =>
        Pool._success self = true
        ∧ length value = length l
        ∧ ∀ j x, l !! j = Some x →
            if decide (j / c ∈ done) then
              ∃ y, func x = Returns y ∧ value !! j = Some (Some y)
            else value !! j = Some None
    | Raises e =>
        Pool._success self = false ∧ ∃ x, x ∈ l ∧ func x = Raises e
    end.

(** ** Which exception, and which results *)

(** The exception of a computation, if it raised. *)
Definition error_of {X} (m : Result X) : option PyExn :=
  match m with
  | Raises e => Some e
  | Returns _ => None
  end.

(** The first element of [xs], in order, for which [f] gives something. *)
Fixpoint first_Some {X Y} (f : X → option Y) (xs : list X) : option Y :=
  match xs with
  | [] => None
  | x :: rest =>
      match f x with
      | Some y => Some y
      | None => first_Some f rest
      end
  end.

(** The exception an item block leads to: its title is looked for first,
    then its description, then its image, then the [src] of the image. *)
Definition item_exception (item : PageElement) : option PyExn :=
  if absent (find item "h3" (class_ "css-i1z3c1")) then Some AttributeError
  else if absent (find item "p" (class_ "css-5yxv3r")) then Some AttributeError
  else if absent (find item "img" []) then Some TypeError
  else if image_lacks_src item then Some (KeyError "src")
  else None.

(** The exception a category block leads to: its heading is looked for
    before any of its items. *)
Definition block_exception (block : PageElement) : option PyExn :=
  if lacks_heading block then Some AttributeError
  else first_Some item_exception (item_blocks block).

(** The exception a document leads to. *)
Definition page_exception (soup : PageElement) : option PyExn :=
  match find_all soup "div" [("itemscope", AnyValue)] with
  | [] => Some IndexError
  | div_elements :: _ =>
      first_Some block_exception (category_blocks div_elements)
  end.

(** A string without a blank at its start. *)
Definition starts_clean (s : string) : bool :=
  match s with
  | String c _ => negb (Str.isspace c)
  | EmptyString => true
  end.

(** A string without a blank at either end. *)
Definition is_trimmed (s : string) : bool :=
  starts_clean s && starts_clean (String.rev s).


(** ** Sample pages *)

Module Sample.

Definition element (name : string) (attrs : list (string * AttrValue))
    (contents : list PageElement) : PageElement :=
  Tag name (list_to_map attrs) contents.

Definition classed (name c : string) (contents : list PageElement)
    : PageElement :=
  element name [("class", AttrList [c])] contents.

(** [<li class="css-1mr03gh"><h3 class="css-i1z3c1">..</h3><p
    class="css-5yxv3r">..</p><img src=".."></li>] *)
Definition book_item (title description src : string) : PageElement :=
  classed "li" "css-1mr03gh"
    [classed "h3" "css-i1z3c1" [NavigableString title];
     classed "p" "css-5yxv3r" [NavigableString description];
     element "img" [("src", AttrStr src)] []].

Definition category_block (heading : string) (items : list PageElement)
    : PageElement :=
  classed "div" "css-v2kl5d"
    [element "h2" [] [NavigableString heading]; element "ol" [] items].

Definition page (blocks : list PageElement) : list PageElement :=
  [element "html" []
     [element "head" [] [element "title" [] [NavigableString "Best Sellers"]];
      element "body" []
        [element "div" [("itemscope", AttrStr "")] blocks]]].

Definition document (contents : list PageElement) : PageElement :=
  Tag "[document]" ∅ contents.

(** One category, "Hardcover Fiction", with "Book A" and "Book B". *)
Definition fiction : list PageElement :=
  page [category_block "Hardcover Fiction"
          [book_item " Book A " "by Author A" "https://img.example/a.jpg";
           book_item "Book B" "by Author B" "https://img.example/b.jpg"]].

Definition fiction_data : list Category :=
  [{| category := "Hardcover Fiction";
      books :=
        [{| position := 1; title := "Book A"; description := "by Author A";
            image_url := AttrStr "https://img.example/a.jpg" |};
         {| position := 2; title := "Book B"; description := "by Author B";
            image_url := AttrStr "https://img.example/b.jpg" |}] |}].

(** A page whose container has no category block. *)
Definition no_category : list PageElement := page [].

(** A category with a heading and no item. *)
Definition empty_category : PageElement := category_block "Audio" [].

(** An item whose image has no [src]. *)
Definition item_without_src : PageElement :=
  classed "li" "css-1mr03gh"
    [classed "h3" "css-i1z3c1" [NavigableString "Book C"];
     classed "p" "css-5yxv3r" [NavigableString "by Author C"];
     element "img" [("alt", AttrStr "cover")] []].

Definition image_without_src : list PageElement :=
  page [category_block "Hardcover Fiction" [item_without_src]].

(** The landing page: [<time class="css-6068ga">November 3, 2024</time>]. *)
Definition landing : list PageElement :=
  [element "html" []
     [element "body" []
        [classed "time" "css-6068ga" [NavigableString "November 3, 2024"]]]].

(** A parser that knows the sample pages by name. *)
Definition html_parser (content : string) : list PageElement :=
  if bool_decide (content = "landing") then landing
  else if bool_decide (content = "fiction") then fiction
  else if bool_decide (content = "no category") then no_category
  else [].

Definition ok (content : string) : Exchange :=
  Answered [1%Z]
           {| status_code := 200; content := content; text := content |}.


(** The same page with status 200, sent piece by piece: no wait is long, the
    whole takes 9 units of time. *)
Definition drip_fed (content : string) : Exchange :=
  Answered [1%Z; 2%Z; 2%Z; 2%Z; 2%Z]
           {| status_code := 200; content := content; text := content |}.

Definition not_found : Exchange :=
  Answered [1%Z] {| status_code := 404; content := "gone"; text := "gone" |}.

Definition too_slow : Exchange :=
  Answered [1%Z; 6%Z]
           {| status_code := 200; content := "fiction"; text := "fiction" |}.

(** A site that serves the landing page and the three latest weeks. *)
Definition network (url : string) : Exchange :=
  if bool_decide (url = "https://www.nytimes.com/books/best-sellers") then
    ok "landing"
  else if bool_decide
            (url = "https://www.nytimes.com/books/best-sellers/2024/11/03/")
  then ok "fiction"
  else if bool_decide
            (url = "https://www.nytimes.com/books/best-sellers/2024/10/27/")
  then ok "no category"
  else if bool_decide
            (url = "https://www.nytimes.com/books/best-sellers/2024/10/20/")
  then ok "fiction"
  else if bool_decide
            (url = "https://www.nytimes.com/books/best-sellers/2024/10/13/")
  then too_slow
  else not_found.

Definition today : datetime := Datetime 2024 11 3 0 0 0 0.


(** A site that sends every page piece by piece. *)
Definition slow_network (url : string) : Exchange :=
  if bool_decide (url = "https://www.nytimes.com/books/best-sellers") then
    drip_fed "landing"
  else drip_fed "fiction".

(** No site at all. *)
Definition no_network (url : string) : Exchange := Unreachable.

End Sample.

(** ** A site where every week is there *)

Module Archive.

(** The landing page, and the sample page for every other address. *)
Definition network (url : string) : Exchange :=
  if bool_decide (url = "https://www.nytimes.com/books/best-sellers") then
    Sample.ok "landing"
  else Sample.ok "fiction".

(** What the program prints for that site: the sample categories, 105
    times. *)
Definition expected : list (option BestSeller) :=
  (λ w, Some {| week := w; data := Sample.fiction_data |}) <$> all_weeks.

End Archive.

(** * Properties *)

(** ** The model at work *)

Example strptime_sample :
  strptime_B_d_Y "November 3, 2024" = Returns (Datetime 2024 11 3 0 0 0 0).
Proof. reflexivity. Qed.

Example strptime_no_such_day : strptime_B_d_Y "February 30, 2024" = Raises ValueError.
Proof. reflexivity. Qed.

Example strftime_sample : strftime_Ymd (Datetime 2024 11 3 0 0 0 0) = "2024/11/03".
Proof. reflexivity. Qed.

Example strftime_early_years :
  strftime_Ymd (Datetime 999 12 25 0 0 0 0) = "999/12/25"
  ∧ strftime_Ymd (Datetime 1 1 3 0 0 0 0) = "1/01/03".
Proof. split; reflexivity. Qed.

Example sub_sample :
  datetime_sub (Datetime 2024 11 3 0 0 0 0) 7 = Returns (Datetime 2024 10 27 0 0 0 0).
Proof. reflexivity. Qed.

Example extract_fiction :
  extract (Sample.document Sample.fiction) = Returns Sample.fiction_data.
Proof. vm_compute. reflexivity. Qed.

Example get_main_date_sample :
  outcome (get_main_date Sample.network Sample.html_parser)
  = Returns Sample.today.
Proof. vm_compute. reflexivity. Qed.

Example scrape_week_3 :
  outcome (scrape_best_seller Sample.network Sample.html_parser 3 Sample.today)
  = Raises Timeout.
Proof. vm_compute. reflexivity. Qed.

Example scrape_week_4 :
  outcome (scrape_best_seller Sample.network Sample.html_parser 4 Sample.today)
  = Raises (Exception_ "Error response: 404, gone").
Proof. vm_compute. reflexivity. Qed.

(** A page that comes piece by piece is read to the end, however long the
    whole takes: the timeout bounds each wait. *)
Example get_main_date_drip_fed :
  latency (Sample.slow_network "https://www.nytimes.com/books/best-sellers")
  = 2%Z
  ∧ outcome (get_main_date Sample.slow_network Sample.html_parser)
    = Returns Sample.today
  ∧ outcome (scrape_best_seller Sample.slow_network Sample.html_parser 0
               Sample.today)
    = Returns {| week := 0; data := Sample.fiction_data |}.
Proof. vm_compute. auto. Qed.

Example no_connection :
  outcome (get_main_date Sample.no_network Sample.html_parser)
  = Raises ConnectionError
  ∧ outcome (scrape_best_seller Sample.no_network Sample.html_parser 0
               Sample.today)
    = Raises ConnectionError.
Proof. vm_compute. auto. Qed.

Example run_three_weeks :
  run Sample.network Sample.html_parser Sample.today [0; 1; 2]%Z 3 [2; 0; 1]
  = Some (Returns [Some {| week := 0; data := Sample.fiction_data |};
                   Some {| week := 1; data := [] |};
                   Some {| week := 2; data := Sample.fiction_data |}]).
Proof. vm_compute. reflexivity. Qed.

(** Five weeks on one process go in three chunks; week 3 times out and week
    4 is missing: the run raises the error of the chunk that comes back
    first, and blocks while a chunk is outstanding. *)
Example run_five_weeks :
  run Sample.network Sample.html_parser Sample.today [0; 1; 2; 3; 4]%Z 1
      [1; 0; 2]
  = Some (Raises Timeout)
  ∧ run Sample.network Sample.html_parser Sample.today [0; 1; 2; 3; 4]%Z 1
        [2; 0; 1]
    = Some (Raises (Exception_ "Error response: 404, gone"))
  ∧ run Sample.network Sample.html_parser Sample.today [0; 1; 2; 3; 4]%Z 1
        [1; 0]
    = None.
Proof. vm_compute. auto. Qed.

(** ** Fallible computations and loops *)

Lemma bind_Returns {A B} (m : Result A) (f : A → Result B) b :
  m ≫= f = Returns b ↔ ∃ a, m = Returns a ∧ f a = Returns b.
Proof.
  destruct m as [a|e]; simpl.
  - split; [eauto | intros (a' & [= <-] & H); done].
  - split; [done | intros (a' & [=] & _)].
Qed.

Lemma bind_Raises {A B} (m : Result A) (f : A → Result B) e :
  m ≫= f = Raises e ↔ m = Raises e ∨ ∃ a, m = Returns a ∧ f a = Raises e.
Proof.
  destruct m as [a|e']; simpl.
  - split; [eauto | intros [[=] | (a' & [= <-] & H)]; done].
  - split; [intros [= <-]; auto | intros [[= <-] | (a' & [=] & _)]; done].
Qed.

Lemma raised_bind {A B} (m : Result A) (f : A → Result B) :
  raised (m ≫= f)
  = match m with Returns a => raised (f a) | Raises _ => true end.
Proof. by destruct m. Qed.

Section ForAppend.
Context {X Y : Type} (body : X → Result Y).

Lemma for_append_Returns xs acc r :
  for_append body xs acc = Returns r
  ↔ ∃ ys, Forall2 (λ x y, body x = Returns y) xs ys ∧ r = acc ++ ys.
Proof.
  revert acc r. induction xs as [|x xs IH]; intros acc r; simpl.
  - split.
    + intros [= <-]. exists []. by rewrite app_nil_r.
    + intros (ys & Hys & ->). apply Forall2_nil_inv_l in Hys as ->.
      by rewrite app_nil_r.
  - rewrite bind_Returns. split.
    + intros (y & Hy & Hrest). apply IH in Hrest as (ys & Hys & ->).
      exists (y :: ys). split; [by constructor | by rewrite <- app_assoc].
    + intros (ys & Hys & ->).
      apply Forall2_cons_inv_l in Hys as (y & ys' & Hy & Hys & ->).
      exists y. split; [done |]. apply IH. exists ys'.
      split; [done | by rewrite <- app_assoc].
Qed.

Lemma for_append_raised xs acc :
  raised (for_append body xs acc) = existsb (λ x, raised (body x)) xs.
Proof.
  revert acc. induction xs as [|x xs IH]; intros acc; simpl; [done |].
  rewrite raised_bind. destruct (body x) as [y|e]; simpl; [apply IH | done].
Qed.

Lemma for_append_Raises xs acc e :
  for_append body xs acc = Raises e → ∃ x, x ∈ xs ∧ body x = Raises e.
Proof.
  revert acc. induction xs as [|x xs IH]; intros acc; simpl; [done |].
  rewrite bind_Raises. intros [Hx | (y & Hy & Hrest)].
  - exists x. split; [left | done].
  - apply IH in Hrest as (x' & Hin & Hx'). exists x'. split; [by right | done].
Qed.

End ForAppend.

(** ** Searches *)

Lemma find_is_tag element name filters found :
  find element name filters = Some found →
  ∃ n attrs contents, found = Tag n attrs contents.
Proof.
  unfold find, find_all. intros H%head_Some_elem_of.
  apply list_elem_of_In, filter_In in H as [_ H].
  destruct found; [eauto | done | done].
Qed.

Lemma get_text_raised found : raised (get_text found) = absent found.
Proof. by destruct found. Qed.

Lemma getitem_src_raised item :
  raised (getitem (find item "img" []) "src")
  = absent (find item "img" []) || image_lacks_src item.
Proof.
  unfold image_lacks_src.
  destruct (find item "img" []) as [found|] eqn:Hfind; [| done].
  apply find_is_tag in Hfind as (n & attrs & contents & ->). simpl.
  by destruct (attrs !! "src").
Qed.

(** ** Extraction: when it fails *)

Lemma scrape_book_raised position item :
  raised (scrape_book position item) = lacks_part item || image_lacks_src item.
Proof.
  unfold scrape_book, lacks_part. rewrite raised_bind.
  destruct (find item "h3" _) as [h3|]; simpl; [| done].
  rewrite raised_bind.
  destruct (find item "p" _) as [p|]; simpl; [| done].
  rewrite raised_bind, <- getitem_src_raised.
  by destruct (getitem _ _).
Qed.

Lemma existsb_pointwise {X} (f g : X → bool) xs :
  (∀ x, f x = g x) → existsb f xs = existsb g xs.
Proof. intros H. induction xs as [|x xs IH]; simpl; [done |]. by rewrite H, IH. Qed.

Lemma existsb_enumerate {X} (f : X → bool) xs start :
  existsb (λ pe, f pe.2) (enumerate xs start) = existsb f xs.
Proof.
  revert start. induction xs as [|x xs IH]; intros start; simpl; [done |].
  by rewrite IH.
Qed.

Lemma scrape_books_raised items acc :
  raised (scrape_books items acc)
  = existsb (λ item, lacks_part item || image_lacks_src item) items.
Proof.
  unfold scrape_books. rewrite for_append_raised.
  rewrite <- (existsb_enumerate _ items 1).
  apply existsb_pointwise. intros [p item]. apply scrape_book_raised.
Qed.

Lemma scrape_category_raised block :
  raised (scrape_category block)
  = lacks_heading block
    || existsb (λ item, lacks_part item || image_lacks_src item)
               (item_blocks block).
Proof.
  unfold scrape_category, lacks_heading. rewrite raised_bind.
  destruct (find block "h2" []) as [h2|]; simpl; [| done].
  rewrite raised_bind, <- (scrape_books_raised _ []).
  by destruct (scrape_books _ _).
Qed.

Lemma extract_raised soup :
  raised (extract soup)
  = page_incomplete (λ item, lacks_part item || image_lacks_src item) soup.
Proof.
  unfold extract, container, page_incomplete. rewrite raised_bind.
  destruct (find_all soup "div" _) as [|div_elements divs]; simpl; [done |].
  unfold scrape_categories. rewrite for_append_raised.
  apply existsb_pointwise. intros block. apply scrape_category_raised.
Qed.

Lemma scrape_book_error position item e :
  scrape_book position item = Raises e → error_class e = ParseError.
Proof.
  unfold scrape_book. rewrite bind_Raises. intros [H | (t & _ & H)].
  { destruct (find item "h3" _); simplify_eq/=. done. }
  rewrite bind_Raises in H. destruct H as [H | (d & _ & H)].
  { destruct (find item "p" _); simplify_eq/=. done. }
  rewrite bind_Raises in H. destruct H as [H | (u & _ & H)]; [| done].
  unfold getitem in H. repeat case_match; by simplify_eq/=.
Qed.

Lemma scrape_category_error block e :
  scrape_category block = Raises e → error_class e = ParseError.
Proof.
  unfold scrape_category. rewrite bind_Raises. intros [H | (t & _ & H)].
  { destruct (find block "h2" _); simplify_eq/=. done. }
  rewrite bind_Raises in H. destruct H as [H | (d & _ & H)]; [| done].
  apply for_append_Raises in H as ([p item] & _ & H).
  by eapply scrape_book_error.
Qed.

Lemma extract_error soup e :
  extract soup = Raises e → error_class e = ParseError.
Proof.
  unfold extract. rewrite bind_Raises. intros [H | (t & _ & H)].
  { unfold container in H. destruct (find_all soup _ _); by simplify_eq/=. }
  apply for_append_Raises in H as (block & _ & H).
  by eapply scrape_category_error.
Qed.

(** ** Extraction: what it returns *)

Lemma get_text_Returns found s :
  get_text found = Returns s ↔ ∃ element, found = Some element ∧ s = tag_text element.
Proof.
  destruct found as [element|]; simpl.
  - split; [intros [= <-]; eauto | intros (? & [= <-] & ->); done].
  - split; [done | intros (? & [=] & _)].
Qed.

Lemma getitem_Returns found key v :
  getitem found key = Returns v
  ↔ ∃ name attrs contents,
      found = Some (Tag name attrs contents) ∧ attrs !! key = Some v.
Proof.
  split.
  - unfold getitem. intros H. repeat case_match; simplify_eq/=. eauto.
  - intros (name & attrs & contents & -> & H). simpl. by rewrite H.
Qed.

Lemma scrape_book_Returns position item b :
  scrape_book position item = Returns b ↔ book_of position item b.
Proof.
  unfold scrape_book, book_of. rewrite bind_Returns. split.
  - intros (t & (h3 & Hh3 & ->)%get_text_Returns & H).
    apply bind_Returns in H as (d & (p & Hp & ->)%get_text_Returns & H).
    apply bind_Returns in H as (u & Hu & [= <-]).
    apply getitem_Returns in Hu as (name & attrs & contents & Himg & Hsrc).
    exists h3, p, name, attrs, contents. done.
  - intros (h3 & p & name & attrs & contents & Hh3 & Hp & Himg & Hsrc
            & Hpos & Htitle & Hdesc).
    exists (tag_text h3). split; [by rewrite Hh3 |].
    rewrite Hp, Himg. simpl. rewrite Hsrc. simpl.
    destruct b; simpl in *. by subst.
Qed.

Lemma scrape_category_Returns block c :
  scrape_category block = Returns c ↔ category_of block c.
Proof.
  unfold scrape_category, category_of, scrape_books. rewrite bind_Returns.
  split.
  - intros (t & (h2 & Hh2 & ->)%get_text_Returns & H).
    apply bind_Returns in H as (bs & Hbs & [= <-]).
    apply for_append_Returns in Hbs as (ys & Hys & ->).
    exists h2. split_and!; [done | done |]. simpl.
    eapply Forall2_impl; [exact Hys |].
    intros [p item] b. apply scrape_book_Returns.
  - intros (h2 & Hh2 & Hname & Hbooks).
    exists (tag_text h2). split; [by rewrite Hh2 |].
    apply bind_Returns. exists (books c). split.
    + apply for_append_Returns. exists (books c). split; [| done].
      eapply Forall2_impl; [exact Hbooks |].
      intros [p item] b. apply scrape_book_Returns.
    + destruct c; simpl in *. by subst.
Qed.

Lemma extract_Returns soup cats :
  extract soup = Returns cats
  ↔ ∃ div_elements,
      container soup = Returns div_elements
      ∧ Forall2 category_of (category_blocks div_elements) cats.
Proof.
  unfold extract, scrape_categories. rewrite bind_Returns.
  split; intros (div_elements & Hdiv & H); exists div_elements;
    (split; [done |]).
  - apply for_append_Returns in H as (ys & Hys & ->). simpl.
    eapply Forall2_impl; [exact Hys |]. intros. by apply scrape_category_Returns.
  - apply for_append_Returns. exists cats. split; [| done].
    eapply Forall2_impl; [exact H |]. intros. by apply scrape_category_Returns.
Qed.

Lemma enumerate_positions items k (bs : list Book) :
  Forall2 (λ pe b, book_of pe.1 pe.2 b) (enumerate items (Z.of_nat k)) bs →
  position <$> bs = Z.of_nat <$> seq k (length bs).
Proof.
  revert k bs. induction items as [|item items IH]; intros k bs H; simpl in H.
  - by apply Forall2_nil_inv_l in H as ->.
  - apply Forall2_cons_inv_l in H as (b & bs' & Hb & Hbs & ->). simpl.
    destruct Hb as (? & ? & ? & ? & ? & _ & _ & _ & _ & -> & _).
    f_equal. apply IH. by replace (Z.of_nat (S k)) with (Z.of_nat k + 1)%Z by lia.
Qed.

Lemma category_of_ranks block c :
  category_of block c → position <$> books c = ranks (length (books c)).
Proof.
  intros (h2 & _ & _ & H). by apply (enumerate_positions (item_blocks block) 1).
Qed.

(** C4.  Whenever a document can be extracted, the positions of the books of
    every category of the result are 1, 2, 3, ... in this order, without gap
    or repeat: they are the ranks of the item blocks in the enumeration. *)
Theorem positions_are_dense soup cats :
  extract soup = Returns cats →
  Forall (λ c, position <$> books c = ranks (length (books c))) cats.
Proof.
  intros (div_elements & _ & H)%extract_Returns.
  apply Forall_forall. intros c Hc.
  apply list_elem_of_lookup in Hc as [i Hi].
  destruct (Forall2_lookup_r _ _ _ _ _ H Hi) as (block & _ & Hblock).
  by eapply category_of_ranks.
Qed.

Lemma positions_are_dense_witness :
  Forall (λ c, position <$> books c = ranks (length (books c)))
         Sample.fiction_data.
Proof.
  apply (positions_are_dense (Sample.document Sample.fiction)).
  vm_compute. reflexivity.
Defined.

(** C5.  The categories of the result are the category blocks of the
    container, one for one and in the order of the document, and the books
    of a category are its item blocks, one for one and in that order: nothing
    is sorted, dropped or merged.  The page with the one category "Hardcover
    Fiction" and the items "Book A" and "Book B" gives exactly that category
    with the two books at positions 1 and 2. *)
Theorem extract_keeps_document_order :
  (∀ soup cats,
     extract soup = Returns cats →
     ∃ div_elements,
       container soup = Returns div_elements
       ∧ Forall2 category_of (category_blocks div_elements) cats)
  ∧ extract (Sample.document Sample.fiction)
    = Returns
        [{| category := "Hardcover Fiction";
            books :=
              [{| position := 1; title := "Book A";
                  description := "by Author A";
                  image_url := AttrStr "https://img.example/a.jpg" |};
               {| position := 2; title := "Book B";
                  description := "by Author B";
                  image_url := AttrStr "https://img.example/b.jpg" |}] |}].
Proof.
  split.
  - intros soup cats H. by apply extract_Returns.
  - vm_compute. reflexivity.
Qed.

Lemma extract_keeps_document_order_witness :
  ∃ div_elements,
    container (Sample.document Sample.fiction) = Returns div_elements
    ∧ Forall2 category_of (category_blocks div_elements) Sample.fiction_data.
Proof.
  apply (proj1 extract_keeps_document_order (Sample.document Sample.fiction)).
  vm_compute. reflexivity.
Defined.

(** C3, as stated, fails: an item whose image element is there but has no
    [src] attribute stops the extraction with [KeyError], although the
    container, the heading and the three elements of the item are present. *)
Lemma extract_fails_with_all_elements_present :
  extract (Sample.document Sample.image_without_src) = Raises (KeyError "src")
  ∧ page_incomplete lacks_part (Sample.document Sample.image_without_src)
    = false.
Proof. split; vm_compute; reflexivity. Qed.

(** C3, amended.  Extraction fails exactly when the container is absent, a
    category block has no heading, an item block has no title, description or
    image element, or the first image element of an item block has no [src]
    attribute; the failure is a parse error, and a failed extraction returns
    no categories at all. *)
Theorem extract_fails_iff soup :
  raised (extract soup)
  = page_incomplete (λ item, lacks_part item || image_lacks_src item) soup
  ∧ match extract soup with
    | Raises e => error_class e = ParseError
    | Returns _ =>
        page_incomplete (λ item, lacks_part item || image_lacks_src item) soup
        = false
    end.
Proof.
  split; [apply extract_raised |].
  destruct (extract soup) as [cats|e] eqn:H.
  - by rewrite <- extract_raised, H.
  - by eapply extract_error.
Qed.

(** ** The two requests *)

Lemma in_time_Forall (waits : list Z) timeout :
  existsb (λ wait, (timeout <? wait)%Z) waits = false
  ↔ Forall (λ wait, (wait ≤ timeout)%Z) waits.
Proof.
  induction waits as [|wait waits IH]; simpl.
  - split; [constructor | done].
  - rewrite orb_false_iff, IH, Forall_cons, Z.ltb_ge. tauto.
Qed.

Lemma in_time_latency (waits : list Z) timeout :
  (0 ≤ timeout)%Z →
  Forall (λ wait, (wait ≤ timeout)%Z) waits
  ↔ (foldr Z.max 0 waits ≤ timeout)%Z.
Proof.
  intros Htimeout. induction waits as [|wait waits IH]; simpl.
  - split; [done | constructor].
  - rewrite Forall_cons, IH. lia.
Qed.

Lemma received_error exchange timeout e :
  received exchange timeout = Raises e → error_class e = FetchError.
Proof.
  destruct exchange as [waits response|]; simpl; [| by intros [= <-]].
  destruct (existsb _ waits); by intros [= <-].
Qed.

Section Requests.

Variable network : string → Exchange.
Variable html_parser : string → list PageElement.

Lemma requests_get_outcome url timeout :
  outcome (requests_get network url timeout)
  = received (network url) timeout.
Proof. done. Qed.

Lemma scrape_best_seller_outcome week date :
  outcome (scrape_best_seller network html_parser week date)
  = url ← build_url week date;
    response ← received (network url) 5;
    if (status_code response =? 200)%Z then
      data ← extract (BeautifulSoup html_parser (content response));
      mret {| week := week; data := data |}
    else Raises (error_response response).
Proof.
  unfold scrape_best_seller.
  destruct (build_url week date) as [url|e]; simpl; [| done].
  destruct (received (network url) 5) as [response|e]; simpl; [| done].
  destruct (status_code response =? 200)%Z; simpl; [| done].
  by destruct (extract _).
Qed.

Lemma scrape_best_seller_requests week date :
  requests (scrape_best_seller network html_parser week date)
  = match build_url week date with
    | Returns url => [{| url := url; timeout := 5 |}]
    | Raises _ => []
    end.
Proof.
  unfold scrape_best_seller.
  destruct (build_url week date) as [url|e]; simpl; [| done].
  destruct (received (network url) 5) as [response|e]; simpl; [| done].
  destruct (status_code response =? 200)%Z; simpl; [| done].
  by destruct (extract _).
Qed.

Lemma get_main_date_outcome :
  outcome (get_main_date network html_parser)
  = (response ←
       received (network "https://www.nytimes.com/books/best-sellers") 5;
     if (status_code response =? 200)%Z then
       time_elements ←
         get_text (find (BeautifulSoup html_parser (content response))
                        "time" (class_ "css-6068ga"));
       strptime_B_d_Y time_elements
     else Raises (error_response response)).
Proof.
  unfold get_main_date. simpl.
  destruct (received _ 5) as [response|e]; simpl; [| done].
  destruct (status_code _ =? 200)%Z; simpl; [| done].
  destruct (get_text _); simpl; [| done].
  by destruct (strptime_B_d_Y _).
Qed.


End Requests.







(** C9.  A page that was fetched and whose container holds no category block
    is extracted without error: the result carries the week it was asked for
    and an empty list of categories. *)
Theorem empty_container_gives_empty_week network html_parser week date
    page_url div_elements :
  build_url week date = Returns page_url →
  (latency (network page_url) ≤ 5)%Z →
  status_code (answer (network page_url)) = 200%Z →
  container (BeautifulSoup html_parser (content (answer (network page_url))))
  = Returns div_elements →
  category_blocks div_elements = [] →
  outcome (scrape_best_seller network html_parser week date)
  = Returns {| week := week; data := [] |}.
Proof.
  intros Hurl Hfast Hok Hdiv Hnone.
  rewrite scrape_best_seller_outcome, Hurl. simpl.
  destruct (network page_url) as [waits response|]; simpl in *; [| done].
  apply in_time_latency, in_time_Forall in Hfast as ->; [| lia]. simpl.
  rewrite Hok. simpl. unfold extract. rewrite Hdiv. simpl. by rewrite Hnone.
Qed.

Lemma empty_container_gives_empty_week_witness :
  outcome (scrape_best_seller Sample.network Sample.html_parser 1 Sample.today)
  = Returns {| week := 1; data := [] |}.
Proof.
  apply (empty_container_gives_empty_week Sample.network Sample.html_parser 1
           Sample.today "https://www.nytimes.com/books/best-sellers/2024/10/27/"
           (Sample.element "div" [("itemscope", AttrStr "")] [])).
  - vm_compute. reflexivity.
  - vm_compute. discriminate.
  - vm_compute. reflexivity.
  - vm_compute. reflexivity.
  - vm_compute. reflexivity.
Defined.

(** C10.  A category block with a heading and no item block is extracted
    into a category named by the text of the heading, with an empty list of
    books; and in every document that can be extracted, that category stands
    in the result at the place of its block: it is neither an error nor
    skipped. *)
Theorem empty_category_is_kept block h2 :
  find block "h2" [] = Some h2 →
  item_blocks block = [] →
  scrape_category block = Returns {| category := tag_text h2; books := [] |}
  ∧ ∀ soup div_elements cats i,
      container soup = Returns div_elements →
      category_blocks div_elements !! i = Some block →
      extract soup = Returns cats →
      cats !! i = Some {| category := tag_text h2; books := [] |}.
Proof.
  intros Hh2 Hitems. split.
  - unfold scrape_category, scrape_books. by rewrite Hh2, Hitems.
  - intros soup div_elements cats i Hdiv Hblock Hx.
    apply extract_Returns in Hx as (div' & Hdiv' & Hcats).
    rewrite Hdiv in Hdiv'. injection Hdiv' as <-.
    destruct (Forall2_lookup_l _ _ _ _ _ Hcats Hblock) as (c & -> & Hc).
    destruct Hc as (h2' & Hh2' & Hname & Hbooks).
    rewrite Hh2 in Hh2'. injection Hh2' as <-.
    rewrite Hitems in Hbooks. simpl in Hbooks.
    apply Forall2_nil_inv_l in Hbooks.
    destruct c as [name bs]; simpl in *. by subst.
Qed.

Lemma empty_category_is_kept_witness :
  scrape_category Sample.empty_category
  = Returns {| category := "Audio"; books := [] |}.
Proof.
  refine (proj1 (empty_category_is_kept Sample.empty_category
                   (Sample.element "h2" [] [NavigableString "Audio"]) _ _)).
  - vm_compute. reflexivity.
  - vm_compute. reflexivity.
Defined.

(** ** The calendar *)

Module CalendarFacts.
Import Calendar.
Local Open Scope Z_scope.

Lemma month_day_table :
  forallb (λ k, month_day_ok true k && month_day_ok false k) (seq 0 365) = true.
Proof. vm_compute. reflexivity. Qed.

Lemma month_day_spec leapyear n :
  0 ≤ n < 365 →
  let '(m, d) := month_day leapyear n in
  1 ≤ m ≤ 12
  ∧ 1 ≤ d ≤ DAYS_IN_MONTH m + (if (m =? 2) && leapyear then 1 else 0)
  ∧ DAYS_BEFORE_MONTH m + (if (m >? 2) && leapyear then 1 else 0) + d = n + 1.
Proof.
  intros Hn.
  assert (Hk : In (Z.to_nat n) (seq 0 365)) by (apply in_seq; lia).
  pose proof (proj1 (forallb_forall _ _) month_day_table _ Hk) as Hok.
  apply andb_prop in Hok as [Ht Hf].
  assert (H : month_day_ok leapyear (Z.to_nat n) = true) by by destruct leapyear.
  unfold month_day_ok in H. rewrite Z2Nat.id in H by lia.
  destruct (month_day leapyear n) as [m d].
  repeat (apply andb_prop in H as [H ?]). lia.
Qed.

Lemma is_leap_cycle a b c d :
  0 ≤ a → 0 ≤ b ≤ 3 → 0 ≤ c ≤ 24 → 0 ≤ d ≤ 3 →
  is_leap (a * 400 + 1 + b * 100 + c * 4 + d)
  = (d =? 3) && (negb (c =? 24) || (b =? 3)).
Proof.
  intros Ha Hb Hc Hd. unfold is_leap.
  set (y := a * 400 + 1 + b * 100 + c * 4 + d).
  destruct (Z.eqb_spec (y mod 4) 0), (Z.eqb_spec (y mod 100) 0),
    (Z.eqb_spec (y mod 400) 0), (Z.eqb_spec d 3), (Z.eqb_spec c 24),
    (Z.eqb_spec b 3); simpl; try reflexivity; exfalso; subst y;
    Z.to_euclidean_division_equations; lia.
Qed.

Lemma days_before_year_cycle a b c d :
  0 ≤ a → 0 ≤ b ≤ 3 → 0 ≤ c ≤ 24 → 0 ≤ d ≤ 3 →
  days_before_year (a * 400 + 1 + b * 100 + c * 4 + d)
  = a * DI400Y + b * DI100Y + c * DI4Y + d * 365.
Proof.
  intros Ha Hb Hc Hd. unfold days_before_year, DI400Y, DI100Y, DI4Y.
  Z.to_euclidean_division_equations; lia.
Qed.

Lemma ord2ymd_cycle n :
  1 ≤ n →
  ∃ a b c d r,
    0 ≤ a ∧ 0 ≤ b ≤ 4 ∧ 0 ≤ c ≤ 24 ∧ 0 ≤ d ≤ 4 ∧ 0 ≤ r < 365
    ∧ n - 1 = a * DI400Y + b * DI100Y + c * DI4Y + d * 365 + r
    ∧ (b = 4 → c = 0 ∧ d = 0 ∧ r = 0)
    ∧ (d = 4 → c ≤ 23 ∧ r = 0)
    ∧ ord2ymd n
      = let y := a * 400 + 1 + b * 100 + c * 4 + d in
        if (d =? 4) || (b =? 4) then (y - 1, 12, 31)
        else
          let '(m, dd) :=
            month_day ((d =? 3) && (negb (c =? 24) || (b =? 3))) r in
          (y, m, dd).
Proof.
  intros Hn.
  exists ((n - 1) / DI400Y), ((n - 1) mod DI400Y / DI100Y),
    ((n - 1) mod DI400Y mod DI100Y / DI4Y),
    ((n - 1) mod DI400Y mod DI100Y mod DI4Y / 365),
    ((n - 1) mod DI400Y mod DI100Y mod DI4Y mod 365).
  unfold DI400Y, DI100Y, DI4Y.
  split_and!; try (Z.to_euclidean_division_equations; lia).
  unfold ord2ymd, month_day, DI400Y, DI100Y, DI4Y. cbv zeta.
  repeat case_match; simplify_eq/=; reflexivity.
Qed.

Lemma days_in_month_leap y m :
  days_in_month y m
  = DAYS_IN_MONTH m + (if (m =? 2) && is_leap y then 1 else 0).
Proof.
  unfold days_in_month. destruct (Z.eqb_spec m 2) as [->|]; simpl; [| lia].
  by destruct (is_leap y).
Qed.

(** [ord2ymd] gives a date of the calendar, and the date that [ymd2ord]
    counts as day [n]. *)
Lemma ord2ymd_spec n :
  1 ≤ n ≤ MAXORDINAL →
  let '(y, m, d) := ord2ymd n in
  valid_ymd y m d = true ∧ ymd2ord y m d = n.
Proof.
  intros [Hlo Hhi]. unfold MAXORDINAL in Hhi.
  destruct (ord2ymd_cycle n Hlo)
    as (a & b & c & d & r & Ha & Hb & Hc & Hd & Hr & Hn & Hb4 & Hd4 & ->).
  unfold DI400Y, DI100Y, DI4Y in Hn. cbv zeta.
  destruct (Z.eqb_spec d 4) as [->|Hd'].
  { destruct (Hd4 eq_refl) as [Hc' ->]. simpl.
    assert (Hb' : b ≤ 3) by (destruct (Z.eq_dec b 4) as [E|]; [apply Hb4 in E |]; lia).
    replace (a * 400 + 1 + b * 100 + c * 4 + 4 - 1)
      with (a * 400 + 1 + b * 100 + c * 4 + 3) by lia.
    unfold valid_ymd, ymd2ord, days_in_month, days_before_month.
    rewrite is_leap_cycle, days_before_year_cycle by lia.
    unfold DI400Y, DI100Y, DI4Y.
    replace (c =? 24) with false by (symmetry; apply Z.eqb_neq; lia).
    simpl. split; [| lia].
    repeat (apply andb_true_intro; split); apply Z.leb_le; lia. }
  destruct (Z.eqb_spec b 4) as [->|Hb'].
  { destruct (Hb4 eq_refl) as (-> & -> & ->). simpl.
    replace (a * 400 + 1 + 4 * 100 + 0 * 4 + 0 - 1)
      with (a * 400 + 1 + 3 * 100 + 24 * 4 + 3) by lia.
    unfold valid_ymd, ymd2ord, days_in_month, days_before_month.
    rewrite is_leap_cycle, days_before_year_cycle by lia.
    unfold DI400Y, DI100Y, DI4Y. simpl. split; [| lia].
    repeat (apply andb_true_intro; split); apply Z.leb_le; lia. }
  simpl.
  pose proof (month_day_spec ((d =? 3) && (negb (c =? 24) || (b =? 3))) r Hr)
    as Hmd.
  destruct (month_day _ r) as [m dd]. destruct Hmd as (Hm & Hdd & Hsum).
  unfold valid_ymd, ymd2ord, days_before_month.
  rewrite days_in_month_leap, is_leap_cycle, days_before_year_cycle by lia.
  unfold DI400Y, DI100Y, DI4Y. split; [| lia].
  repeat (apply andb_true_intro; split); apply Z.leb_le; lia.
Qed.

Lemma valid_ymd_inv y m d :
  valid_ymd y m d = true →
  1 ≤ y ≤ 9999 ∧ 1 ≤ m ≤ 12 ∧ 1 ≤ d ≤ days_in_month y m.
Proof.
  unfold valid_ymd. intros H. repeat (apply andb_prop in H as [H ?]). lia.
Qed.

Lemma day_of_year_range y m d :
  1 ≤ m ≤ 12 → 1 ≤ d ≤ days_in_month y m →
  1 ≤ days_before_month y m + d ≤ 365 + (if is_leap y then 1 else 0).
Proof.
  intros Hm. unfold days_in_month, days_before_month.
  assert (m = 1 ∨ m = 2 ∨ m = 3 ∨ m = 4 ∨ m = 5 ∨ m = 6 ∨ m = 7 ∨ m = 8
          ∨ m = 9 ∨ m = 10 ∨ m = 11 ∨ m = 12) as Hcases by lia.
  destruct (is_leap y); destruct_or! Hcases; subst m; simpl; lia.
Qed.

Lemma days_before_year_next y :
  days_before_year (y + 1)
  = days_before_year y + 365 + (if is_leap y then 1 else 0).
Proof.
  unfold days_before_year, is_leap.
  destruct (Z.eqb_spec (y mod 4) 0), (Z.eqb_spec (y mod 100) 0),
    (Z.eqb_spec (y mod 400) 0); simpl;
    Z.to_euclidean_division_equations; lia.
Qed.

Lemma days_before_year_mono y1 y2 :
  y1 ≤ y2 → days_before_year y1 ≤ days_before_year y2.
Proof.
  unfold days_before_year. intros H. Z.to_euclidean_division_equations; lia.
Qed.

Lemma ymd2ord_range y m d :
  valid_ymd y m d = true → 1 ≤ ymd2ord y m d ≤ MAXORDINAL.
Proof.
  intros (Hy & Hm & Hd)%valid_ymd_inv.
  pose proof (day_of_year_range y m d Hm Hd) as Hdoy.
  pose proof (days_before_year_next y) as Hnext.
  pose proof (days_before_year_mono 1 y ltac:(lia)) as Hlow.
  pose proof (days_before_year_mono (y + 1) 10000 ltac:(lia)) as Hhigh.
  change (days_before_year 1) with 0 in Hlow.
  change (days_before_year 10000) with 3652059 in Hhigh.
  unfold ymd2ord, MAXORDINAL. lia.
Qed.

(** Two dates of the calendar with the same day count are the same date. *)
Lemma ymd2ord_inj y1 m1 d1 y2 m2 d2 :
  valid_ymd y1 m1 d1 = true → valid_ymd y2 m2 d2 = true →
  ymd2ord y1 m1 d1 = ymd2ord y2 m2 d2 →
  y1 = y2 ∧ m1 = m2 ∧ d1 = d2.
Proof.
  intros (Hy1 & Hm1 & Hd1)%valid_ymd_inv (Hy2 & Hm2 & Hd2)%valid_ymd_inv.
  unfold ymd2ord. intros Heq.
  pose proof (day_of_year_range y1 m1 d1 Hm1 Hd1) as Hdoy1.
  pose proof (day_of_year_range y2 m2 d2 Hm2 Hd2) as Hdoy2.
  pose proof (days_before_year_next y1) as Hnext1.
  pose proof (days_before_year_next y2) as Hnext2.
  assert (y1 = y2) as <-.
  { destruct (Z.lt_trichotomy y1 y2) as [Hlt | [? | Hgt]]; [| done |].
    - pose proof (days_before_year_mono (y1 + 1) y2 ltac:(lia)). lia.
    - pose proof (days_before_year_mono (y2 + 1) y1 ltac:(lia)). lia. }
  split; [done |].
  assert (Hday : days_before_month y1 m1 + d1 = days_before_month y1 m2 + d2)
    by lia.
  clear - Hm1 Hm2 Hd1 Hd2 Hday.
  unfold days_in_month, days_before_month in *.
  assert (m1 = 1 ∨ m1 = 2 ∨ m1 = 3 ∨ m1 = 4 ∨ m1 = 5 ∨ m1 = 6 ∨ m1 = 7
          ∨ m1 = 8 ∨ m1 = 9 ∨ m1 = 10 ∨ m1 = 11 ∨ m1 = 12) as Hc1 by lia.
  assert (m2 = 1 ∨ m2 = 2 ∨ m2 = 3 ∨ m2 = 4 ∨ m2 = 5 ∨ m2 = 6 ∨ m2 = 7
          ∨ m2 = 8 ∨ m2 = 9 ∨ m2 = 10 ∨ m2 = 11 ∨ m2 = 12) as Hc2 by lia.
  destruct (is_leap y1); destruct_or! Hc1; destruct_or! Hc2; subst m1 m2;
    simpl in *; lia.
Qed.

End CalendarFacts.

(** ** The address of a week *)

Lemma append_assoc (s1 s2 s3 : string) :
  (s1 +:+ s2) +:+ s3 = s1 +:+ s2 +:+ s3.
Proof.
  induction s1 as [|c s1 IH]; [done |].
  change (String c ((s1 +:+ s2) +:+ s3) = String c (s1 +:+ s2 +:+ s3)).
  by rewrite IH.
Qed.

Lemma zfill_spec width bound n :
  forallb (zfill_ok width) (seq 0 bound) = true →
  (0 ≤ n)%Z → (Z.to_nat n < bound)%nat →
  String.length (zfill width n) = width
  ∧ read_digits (zfill width n) 0 = Some n.
Proof.
  intros Htable Hn Hb.
  assert (Hk : In (Z.to_nat n) (seq 0 bound)) by (apply in_seq; lia).
  pose proof (proj1 (forallb_forall _ _) Htable _ Hk) as Hok.
  clear Htable Hk. unfold zfill_ok in Hok. rewrite Z2Nat.id in Hok by lia.
  apply andb_prop in Hok as [Hlen Hread].
  apply Nat.eqb_eq in Hlen. split; [exact Hlen |].
  destruct (read_digits _ _) as [n'|]; [| discriminate].
  apply Z.eqb_eq in Hread. by rewrite Hread.
Qed.

Lemma pretty_year n :
  (1 ≤ n < 10000)%Z →
  read_digits (pretty n) 0 = Some n
  ∧ (∀ rest, pretty n ≠ String "0" rest)
  ∧ String.length (pretty n)
    = (if (n <? 10)%Z then 1 else if (n <? 100)%Z then 2
       else if (n <? 1000)%Z then 3 else 4)%nat.
Proof.
  intros Hn.
  assert (Htable : forallb year_ok (seq 0 (100 * 100)) = true)
    by (vm_compute; reflexivity).
  assert (Hk : In (Z.to_nat n) (seq 0 (100 * 100))) by (apply in_seq; lia).
  pose proof (proj1 (forallb_forall _ _) Htable _ Hk) as Hok.
  clear Htable Hk. unfold year_ok in Hok. rewrite Z2Nat.id in Hok by lia.
  apply andb_prop in Hok as [Hok Hlen]. apply andb_prop in Hok as [Hread Hzero].
  apply Nat.eqb_eq in Hlen. split_and!.
  - destruct (read_digits _ _) as [n'|]; [| discriminate].
    apply Z.eqb_eq in Hread. by rewrite Hread.
  - intros rest Heq. rewrite Heq in Hread, Hzero.
    destruct rest as [|c rest]; [| simpl in Hzero; discriminate].
    simpl in Hread. destruct n; [lia | discriminate | discriminate].
  - rewrite Hlen.
    destruct (Z.ltb_spec n 10), (Nat.ltb_spec (Z.to_nat n) 10); try lia.
    destruct (Z.ltb_spec n 100), (Nat.ltb_spec (Z.to_nat n) 100); try lia.
    destruct (Z.ltb_spec n 1000), (Nat.ltb_spec (Z.to_nat n) 1000); lia.
Qed.

Lemma zfill_month_day n :
  (0 ≤ n < 100)%Z →
  String.length (zfill 2 n) = 2%nat ∧ read_digits (zfill 2 n) 0 = Some n.
Proof.
  intros Hn. apply (zfill_spec 2 100); [| lia | lia].
  vm_compute. reflexivity.
Qed.





Example week_2_address :
  build_url 2 (Datetime 2024 11 3 0 0 0 0)
  = Returns "https://www.nytimes.com/books/best-sellers/2024/10/20/".
Proof. vm_compute. reflexivity. Qed.

(** ** The pool *)

Section PoolFacts.

Context {A B : Type}.
Implicit Types (l chunk : list A) (func : A → Result B).

Lemma mapstar_Returns func l ys :
  Pool.mapstar func l = Returns ys ↔ Forall2 (λ x y, func x = Returns y) l ys.
Proof.
  revert ys. induction l as [|x l IH]; intros ys; simpl.
  - split; [intros [= <-]; constructor | by intros ->%Forall2_nil_inv_l].
  - rewrite bind_Returns. split.
    + intros (y & Hy & H). apply bind_Returns in H as (ys' & Hys & [= <-]).
      constructor; [done | by apply IH].
    + intros (y & ys' & Hy & Hys & ->)%Forall2_cons_inv_l.
      exists y. split; [done |]. apply bind_Returns. exists ys'.
      split; [by apply IH | done].
Qed.

Lemma mapstar_Raises func l e :
  Pool.mapstar func l = Raises e → ∃ x, x ∈ l ∧ func x = Raises e.
Proof.
  induction l as [|x l IH]; simpl; [done |].
  rewrite bind_Raises. intros [Hx | (y & Hy & H)].
  - exists x. split; [left | done].
  - apply bind_Raises in H as [H | (ys & _ & [=])].
    destruct (IH H) as (x' & Hin & Hx'). exists x'. split; [by right | done].
Qed.

Lemma div_chunk j c i :
  0 < c → j / c = i ↔ i * c ≤ j < (i + 1) * c.
Proof.
  intros Hc. split.
  - intros <-. pose proof (Nat.div_mod_eq j c).
    pose proof (Nat.mod_upper_bound j c). nia.
  - intros [Hlo Hhi]. symmetry. apply (Nat.div_unique j c i (j - i * c)); lia.
Qed.

Lemma get_tasks_lookup size l fuel i :
  0 < size → length l < fuel →
  Pool.get_tasks size l fuel !! i
  = if decide (i * size < length l) then Some (take size (drop (i * size) l))
    else None.
Proof.
  intros Hsize. revert l i. induction fuel as [|fuel IH]; intros l i Hfuel;
    [lia |].
  cbn [Pool.get_tasks]. destruct (take size l) as [|x chunk] eqn:Htake.
  - destruct (take_nil_inv _ _ Htake) as [? | ->]; [lia |].
    rewrite lookup_nil. destruct (decide _) as [H|H]; [simpl in H; lia | done].
  - rewrite <- Htake. assert (0 < length l).
    { destruct l; [by rewrite take_nil in Htake | simpl; lia]. }
    destruct i as [|i].
    + rewrite decide_True by lia. done.
    + rewrite lookup_cons_ne_0 by lia.
      replace (Nat.pred (S i)) with i by lia.
      rewrite IH by (rewrite length_drop; lia).
      rewrite length_drop, drop_drop.
      destruct (decide (i * size < length l - size)),
        (decide (S i * size < length l)); try lia; done.
Qed.

Lemma chunk_index_bound i c len :
  0 < c →
  i * c < len ↔ i < len / c + (if (len mod c =? 0)%nat then 0 else 1).
Proof.
  intros Hc. pose proof (Nat.div_mod_eq len c).
  pose proof (Nat.mod_upper_bound len c).
  destruct (Nat.eqb_spec (len mod c) 0); nia.
Qed.

Lemma chunk_count_eq c l :
  0 < c →
  length (Pool.get_tasks c l (S (length l)))
  = length l / c + (if (length l mod c =? 0)%nat then 0 else 1).
Proof.
  intros Hc.
  set (tasks := Pool.get_tasks c l (S (length l))).
  set (n := length l / c + _).
  assert (Hlookup : ∀ i, is_Some (tasks !! i) ↔ i < n).
  { intros i. unfold tasks. rewrite get_tasks_lookup by lia.
    pose proof (chunk_index_bound i c (length l) Hc) as Hb. fold n in Hb.
    destruct (decide _); [split; [tauto | eauto] |].
    split; [by intros [? ?] | tauto]. }
  destruct (Nat.lt_trichotomy (length tasks) n) as [Hlt | [? | Hgt]]; [| done |].
  - apply Hlookup, lookup_lt_is_Some in Hlt. lia.
  - apply lookup_lt_is_Some, Hlookup in Hgt. lia.
Qed.

Lemma get_chunksize_pos len processes :
  0 < len → 1 ≤ processes → 0 < Pool.get_chunksize len processes.
Proof.
  intros Hlen Hp. unfold Pool.get_chunksize.
  destruct (Nat.eqb_spec len 0); [lia |].
  pose proof (Nat.div_mod_eq len (processes * 4)).
  destruct (Nat.eqb_spec (len mod (processes * 4)) 0); nia.
Qed.

End PoolFacts.

Section Delivery.

Context {A B : Type} (func : A → Result B) (l : list A) (c : nat).
Hypothesis chunksize_pos : 0 < c.

Let tasks := Pool.get_tasks c l (S (length l)).
Let n := length tasks.

Lemma tasks_lookup i :
  i < n → i * c < length l ∧ tasks !! i = Some (take c (drop (i * c) l)).
Proof.
  intros Hi. apply lookup_lt_is_Some in Hi as [chunk Hchunk].
  unfold tasks in *. rewrite get_tasks_lookup in Hchunk |- * by lia.
  destruct (decide _); [done | done].
Qed.

Lemma delivered_init :
  0 < length l → delivered func l c [] (Pool.MapResult_init c (length l)).
Proof.
  intros Hlen. unfold delivered, Pool.MapResult_init. fold tasks n.
  assert (Hn : n = length l / c + (if (length l mod c =? 0)%nat then 0 else 1))
    by by apply chunk_count_eq.
  assert (0 < n).
  { rewrite Hn. apply (chunk_index_bound 0 c (length l)); lia. }
  destruct (Nat.eqb_spec c 0); [lia |]. simpl.
  split_and!; try done.
  - rewrite Hn. lia.
  - symmetry. apply bool_decide_eq_false. lia.
  - apply length_replicate.
  - intros j x Hj. apply lookup_replicate_2. by eapply lookup_lt_Some.
Qed.

Lemma delivered_step done self i :
  i < n →
  delivered func l c done self →
  delivered func l c (done ++ [i]) (Pool.deliver func tasks self i).
Proof.
  intros Hi (Hsize & Hleft & Hready & Hvalue).
  destruct (tasks_lookup i Hi) as [Hstart Htask].
  unfold Pool.deliver. rewrite Htask. fold tasks n in Hleft, Hready.
  assert (Hcount :
    Pool._chunksize (Pool._set i (Pool.mapstar func (take c (drop (i * c) l))) self) = c
    ∧ Pool._number_left (Pool._set i (Pool.mapstar func (take c (drop (i * c) l))) self)
      = (Z.of_nat n - Z.of_nat (length (done ++ [i])))%Z
    ∧ Pool._ready (Pool._set i (Pool.mapstar func (take c (drop (i * c) l))) self)
      = bool_decide (n ≤ length (done ++ [i]))).
  { rewrite length_app. simpl.
    assert (Hr : Pool._ready self || (Pool._number_left self - 1 =? 0)%Z
                 = bool_decide (n ≤ length done + 1)).
    { rewrite Hready, Hleft.
      destruct (decide (n ≤ length done)).
      - rewrite bool_decide_eq_true_2 by done. simpl. symmetry.
        apply bool_decide_eq_true_2. lia.
      - rewrite bool_decide_eq_false_2 by done. simpl.
        destruct (Z.eqb_spec (Z.of_nat n - Z.of_nat (length done) - 1) 0);
          symmetry; [apply bool_decide_eq_true_2 | apply bool_decide_eq_false_2];
          lia. }
    unfold Pool._set.
    destruct (Pool.mapstar _ _), (Pool._success self), (Pool._value self);
      simpl; (split_and!; [done | lia | done]). }
  destruct Hcount as (Hsize' & Hleft' & Hready').
  unfold delivered. fold tasks n. split_and!; [done | done | done |].
  unfold Pool._set.
  destruct (Pool._value self) as [value|e] eqn:Hv.
  2:{ destruct Hvalue as [-> Hx].
      destruct (Pool.mapstar _ _); simpl; rewrite ?Hv; done. }
  destruct Hvalue as (-> & Hlen & Hslots).
  destruct (Pool.mapstar _ _) as [ys|e] eqn:Hchunk; simpl.
  2:{ split; [done |]. apply mapstar_Raises in Hchunk as (x & Hin & Hx).
      exists x. split; [| done].
      by eapply subseteq_drop, subseteq_take. }
  apply mapstar_Returns in Hchunk.
  pose proof (Forall2_length _ _ _ Hchunk) as Hys.
  rewrite length_take, length_drop in Hys.
  rewrite Hsize. unfold Pool.assign_slice.
  replace (Nat.max (i * c) ((i + 1) * c)) with (i * c + c) by lia.
  split; [done |]. split.
  { rewrite !length_app, length_take, length_fmap, length_drop. lia. }
  intros j x Hj.
  assert (Hjlen : j < length l) by by eapply lookup_lt_Some.
  destruct (decide (j / c = i)) as [Hdiv|Hdiv].
  - rewrite decide_True by (apply elem_of_app; right; by apply list_elem_of_singleton).
    apply div_chunk in Hdiv as [Hlo Hhi]; [| done].
    assert (Hx : take c (drop (i * c) l) !! (j - i * c) = Some x).
    { rewrite lookup_take_lt by lia. rewrite lookup_drop.
      by replace (i * c + (j - i * c)) with j by lia. }
    destruct (Forall2_lookup_l _ _ _ _ _ Hchunk Hx) as (y & Hy & Hfy).
    exists y. split; [done |].
    rewrite lookup_app_r by (rewrite length_take_le; lia).
    rewrite length_take_le by lia.
    rewrite lookup_app_l by (rewrite length_fmap; lia).
    by rewrite list_lookup_fmap, Hy.
  - assert (Hsame :
      (take (i * c) value ++ (Some <$> ys) ++ drop (i * c + c) value) !! j
      = value !! j).
    { assert (j < i * c ∨ i * c + c ≤ j) as [Hbefore|Hafter].
      { destruct (decide (j < i * c)); [by left | right].
        destruct (decide (i * c + c ≤ j)); [done |].
        exfalso. apply Hdiv, div_chunk; lia. }
      - rewrite lookup_app_l by (rewrite length_take; lia).
        by rewrite lookup_take_lt.
      - rewrite lookup_app_r by (rewrite length_take_le; lia).
        rewrite length_take_le by lia.
        rewrite lookup_app_r by (rewrite length_fmap; lia).
        rewrite length_fmap, lookup_drop. f_equal. lia. }
    rewrite Hsame. specialize (Hslots j x Hj).
    destruct (decide (j / c ∈ done)) as [Hin|Hout].
    + rewrite decide_True by (apply elem_of_app; by left). done.
    + rewrite decide_False; [done |].
      intros [? | ?%list_elem_of_singleton]%elem_of_app; done.
Qed.

Lemma delivered_all done self completion :
  Forall (λ i, i < n) completion →
  delivered func l c done self →
  delivered func l c (done ++ completion)
            (foldl (Pool.deliver func tasks) self completion).
Proof.
  revert done self. induction completion as [|i completion IH];
    intros done self Hall Hinv; simpl.
  - by rewrite app_nil_r.
  - apply Forall_cons in Hall as [Hi Hall].
    replace (done ++ i :: completion) with ((done ++ [i]) ++ completion)
      by by rewrite <- app_assoc.
    apply IH; [done |]. by apply delivered_step.
Qed.

End Delivery.

Section PoolMap.

Context {A B : Type} (func : A → Result B).

Lemma slots_full (l : list A) (value : list (option B)) :
  length value = length l →
  (∀ j x, l !! j = Some x →
          ∃ y, func x = Returns y ∧ value !! j = Some (Some y)) →
  ∃ ys, Forall2 (λ x y, func x = Returns y) l ys ∧ value = Some <$> ys.
Proof.
  revert value. induction l as [|x l IH]; intros value Hlen Hslots.
  - destruct value; [| done]. exists []. split; [constructor | done].
  - destruct value as [|slot value]; [done |].
    destruct (Hslots 0 x eq_refl) as (y & Hy & [= ->]).
    destruct (IH value) as (ys & Hys & ->).
    + simpl in Hlen. lia.
    + intros j x' Hj. apply (Hslots (S j) x' Hj).
    + exists (y :: ys). split; [by constructor | done].
Qed.

Lemma map_final processes completion (l : list A) :
  1 ≤ processes →
  Pool.complete processes l completion →
  ∃ self,
    Pool.map processes completion func l = Some (Pool._value self)
    ∧ (l = [] → Pool._value self = Returns [])
    ∧ (l ≠ [] →
       delivered func l (Pool.get_chunksize (length l) processes) completion
                 self).
Proof.
  intros Hp Hcomplete. unfold Pool.map, Pool.complete, Pool.chunk_count in *.
  destruct (Nat.ltb_spec processes 1); [lia |].
  destruct (decide (l = [])) as [->|Hl].
  - simpl in *. apply Permutation_nil_r in Hcomplete as ->. simpl.
    eexists. split; [done |]. split; [done | done].
  - assert (Hlen : 0 < length l) by (destruct l; [done | simpl; lia]).
    set (c := Pool.get_chunksize (length l) processes) in *.
    assert (Hc : 0 < c) by by apply get_chunksize_pos.
    set (tasks := Pool.get_tasks c l (S (length l))) in *.
    assert (Hall : Forall (λ i, i < length tasks) completion).
    { apply Forall_forall. intros i Hi. rewrite Hcomplete in Hi.
      apply elem_of_seq in Hi. lia. }
    pose proof (delivered_all func l c Hc [] _ completion Hall
                  (delivered_init func l c Hc Hlen)) as Hinv.
    change ([] ++ completion) with completion in Hinv. fold tasks in Hinv.
    exists (foldl (Pool.deliver func tasks)
                  (Pool.MapResult_init c (length l)) completion).
    split; [| split; [done | by intros _]].
    unfold Pool.get. destruct Hinv as (_ & _ & -> & _).
    rewrite bool_decide_eq_true_2; [done |].
    fold tasks. by rewrite Hcomplete, length_seq.
Qed.

Lemma delivered_complete processes completion (l : list A) j :
  1 ≤ processes → l ≠ [] →
  Pool.complete processes l completion →
  j < length l →
  j / Pool.get_chunksize (length l) processes ∈ completion.
Proof.
  intros Hp Hl Hcomplete Hj. unfold Pool.complete, Pool.chunk_count in Hcomplete.
  rewrite Hcomplete.
  assert (Hc : 0 < Pool.get_chunksize (length l) processes).
  { apply get_chunksize_pos; [| done]. destruct l; [done | simpl; lia]. }
  apply elem_of_seq. split; [lia |].
  rewrite Nat.add_0_l, chunk_count_eq by done.
  apply chunk_index_bound; [done |].
  pose proof (Nat.div_mod_eq j (Pool.get_chunksize (length l) processes)).
  nia.
Qed.

(** [Pool.map] returns a list exactly when every call of [func] returns, and
    the list then holds the results in the order of the items, whatever the
    number of processes and the order in which the chunks come back. *)
Lemma map_Returns processes completion (l : list A) value :
  1 ≤ processes →
  Pool.complete processes l completion →
  Pool.map processes completion func l = Some (Returns value)
  ↔ ∃ ys, Forall2 (λ x y, func x = Returns y) l ys ∧ value = Some <$> ys.
Proof.
  intros Hp Hcomplete.
  destruct (map_final processes completion l Hp Hcomplete)
    as (self & -> & Hnil & Hcons).
  destruct (decide (l = [])) as [->|Hl].
  { rewrite Hnil by done. split.
    - intros [= <-]. exists []. split; [constructor | done].
    - intros (ys & ->%Forall2_nil_inv_l & ->). done. }
  specialize (Hcons Hl). destruct Hcons as (_ & _ & _ & Hvalue).
  destruct (Pool._value self) as [v|e].
  - destruct Hvalue as (_ & Hlen & Hslots).
    assert (Hfull : ∃ ys, Forall2 (λ x y, func x = Returns y) l ys
                          ∧ v = Some <$> ys).
    { apply slots_full; [done |]. intros j x Hj. specialize (Hslots j x Hj).
      rewrite decide_True in Hslots; [done |].
      eapply delivered_complete; try done. by eapply lookup_lt_Some. }
    split.
    + by intros [= <-].
    + intros (ys & Hys & ->). destruct Hfull as (ys' & Hys' & ->).
      do 3 f_equal. clear -Hys Hys'. revert ys' Hys'.
      induction Hys as [|x y l ys Hy _ IH]; intros ys' Hys'.
      * by apply Forall2_nil_inv_l in Hys' as ->.
      * apply Forall2_cons_inv_l in Hys' as (y' & ys'' & Hy' & Hys' & ->).
        f_equal; [congruence | by apply IH].
  - destruct Hvalue as (_ & x & Hin & Hx). split; [done |].
    intros (ys & Hys & _). exfalso.
    apply list_elem_of_lookup in Hin as [j Hj].
    destruct (Forall2_lookup_l _ _ _ _ _ Hys Hj) as (y & _ & Hy). congruence.
Qed.


End PoolMap.

(** ** The pipeline *)

Section PipelineFacts.

Variable network : string → Exchange.
Variable html_parser : string → list PageElement.
Variable current_date : datetime.

Lemma task_week w r :
  task network html_parser current_date w = Returns r → week r = w.
Proof.
  unfold task. rewrite scrape_best_seller_outcome.
  intros (page_url & _ & H)%bind_Returns.
  apply bind_Returns in H as (response & _ & H).
  destruct (status_code _ =? 200)%Z; [| done].
  by apply bind_Returns in H as (data & _ & [= <-]).
Qed.

Lemma tasks_weeks weeks rs :
  Forall2 (λ w r, task network html_parser current_date w = Returns r)
          weeks rs →
  week <$> rs = weeks.
Proof.
  induction 1 as [|w r weeks rs Hr _ IH]; [done |].
  simpl. f_equal; [by apply task_week | done].
Qed.

End PipelineFacts.

(** C1.  Take any reference date and any list of weeks, and run it twice, on
    [p1] and on [p2] processes, the chunks coming back in any two orders.
    Then one run returns a list exactly when the other does, and it is the
    same list; that list has one result per week, at the index of the week
    and tagged with it, and it is the result of scraping that week.  The run
    does return a list whenever every week can be scraped. *)
Theorem run_is_order_invariant network html_parser current_date weeks
    p1 p2 completion1 completion2 :
  1 ≤ p1 → 1 ≤ p2 →
  Pool.complete p1 weeks completion1 →
  Pool.complete p2 weeks completion2 →
  (∀ results,
     run network html_parser current_date weeks p1 completion1
     = Some (Returns results)
     ↔ run network html_parser current_date weeks p2 completion2
       = Some (Returns results))
  ∧ (∀ results,
       run network html_parser current_date weeks p1 completion1
       = Some (Returns results) →
       ∃ rs,
         results = Some <$> rs
         ∧ week <$> rs = weeks
         ∧ Forall2 (λ w r, task network html_parser current_date w = Returns r)
                   weeks rs)
  ∧ ((∀ w, w ∈ weeks →
           raised (task network html_parser current_date w) = false) →
     ∃ rs,
       run network html_parser current_date weeks p1 completion1
       = Some (Returns (Some <$> rs))).
Proof.
  intros Hp1 Hp2 Hc1 Hc2. unfold run. split_and!.
  - intros results. by rewrite !map_Returns.
  - intros results (rs & Hrs & ->)%map_Returns; [| done | done].
    exists rs. split_and!; [done | by eapply tasks_weeks | done].
  - intros Hall.
    assert (∃ rs, Forall2 (λ w r, task network html_parser current_date w
                                  = Returns r) weeks rs) as [rs Hrs].
    { clear -Hall. induction weeks as [|w weeks IH]; [by exists [] |].
      destruct IH as [rs Hrs].
      { intros w' Hw'. apply Hall. by right. }
      specialize (Hall w ltac:(left)).
      destruct (task _ _ _ w) as [r|e] eqn:Hw; [| done].
      exists (r :: rs). by constructor. }
    exists rs. apply map_Returns; [done | done |]. by exists rs.
Qed.

Lemma run_is_order_invariant_witness :
  run Sample.network Sample.html_parser Sample.today [0; 1; 2]%Z 3 [2; 0; 1]
  = Some (Returns [Some {| week := 0; data := Sample.fiction_data |};
                   Some {| week := 1; data := [] |};
                   Some {| week := 2; data := Sample.fiction_data |}]).
Proof.
  refine (proj1 (proj1 (run_is_order_invariant Sample.network
    Sample.html_parser Sample.today [0; 1; 2]%Z 1 3 [0; 1; 2] [2; 0; 1]
    _ _ _ _) _) _).
  - lia.
  - lia.
  - unfold Pool.complete. reflexivity.
  - unfold Pool.complete.
    change (seq 0 (Pool.chunk_count 3 [0%Z; 1%Z; 2%Z])) with [0; 1; 2].
    etrans; [apply Permutation_swap |].
    apply Permutation_skip, Permutation_swap.
  - vm_compute. reflexivity.
Defined.



(** * Further properties *)

(** ** The exception of an extraction *)

Lemma first_Some_ext {X Y} (f g : X → option Y) xs :
  (∀ x, f x = g x) → first_Some f xs = first_Some g xs.
Proof.
  intros H. induction xs as [|x xs IH]; simpl; [done |]. by rewrite H, IH.
Qed.

Lemma first_Some_enumerate {X Y} (f : X → option Y) xs start :
  first_Some (λ pe, f pe.2) (enumerate xs start) = first_Some f xs.
Proof.
  revert start. induction xs as [|x xs IH]; intros start; simpl; [done |].
  by rewrite IH.
Qed.

Lemma error_of_bind {X Y} (m : Result X) (f : X → Result Y) :
  error_of (m ≫= f)
  = match m with Returns a => error_of (f a) | Raises e => Some e end.
Proof. by destruct m. Qed.

Lemma error_of_for_append {X Y} (body : X → Result Y) xs acc :
  error_of (for_append body xs acc) = first_Some (λ x, error_of (body x)) xs.
Proof.
  revert acc. induction xs as [|x xs IH]; intros acc; simpl; [done |].
  rewrite error_of_bind. destruct (body x) as [y|e]; simpl; [apply IH | done].
Qed.

Lemma error_of_scrape_book position item :
  error_of (scrape_book position item) = item_exception item.
Proof.
  unfold scrape_book, item_exception, image_lacks_src. rewrite error_of_bind.
  destruct (find item "h3" _) as [h3|]; simpl; [| done].
  rewrite error_of_bind.
  destruct (find item "p" _) as [p|]; simpl; [| done].
  rewrite error_of_bind.
  destruct (find item "img" []) as [img|] eqn:Himg; simpl; [| done].
  apply find_is_tag in Himg as (n & attrs & contents & ->). simpl.
  by destruct (attrs !! "src").
Qed.

Lemma error_of_scrape_category block :
  error_of (scrape_category block) = block_exception block.
Proof.
  unfold scrape_category, block_exception, lacks_heading, scrape_books.
  rewrite error_of_bind.
  destruct (find block "h2" []) as [h2|]; simpl; [| done].
  rewrite error_of_bind.
  pose proof (error_of_for_append (λ pe, scrape_book pe.1 pe.2)
                (enumerate (item_blocks block) 1) []) as Hloop.
  rewrite (first_Some_ext _ (λ pe, item_exception pe.2)) in Hloop
    by (intros [p item]; apply error_of_scrape_book).
  rewrite first_Some_enumerate in Hloop. rewrite <- Hloop.
  by destruct (for_append _ _ _).
Qed.

(** X1.  The exception that stops an extraction can be read off the
    document: [IndexError] without a container; otherwise the exception of
    the first category block, in document order, that cannot be read, which
    is [AttributeError] without a heading and otherwise the exception of its
    first item that cannot be read: [AttributeError] without title or
    description, [TypeError] without image, [KeyError 'src'] for an image
    without [src], the title being looked for before the description and the
    description before the image.  No exception means the extraction
    returns. *)
Theorem extract_exception soup :
  error_of (extract soup) = page_exception soup.
Proof.
  unfold extract, container, page_exception. rewrite error_of_bind.
  destruct (find_all soup "div" _) as [|div_elements divs]; simpl; [done |].
  unfold scrape_categories. rewrite error_of_for_append.
  apply first_Some_ext, error_of_scrape_category.
Qed.

(** ** Trimmed titles *)

Lemma append_nil_r (s : string) : s +:+ "" = s.
Proof.
  induction s as [|c s IH]; [done |].
  change (String c (s +:+ "") = String c s). by rewrite IH.
Qed.

Lemma rev_app_append (s1 s2 : string) :
  String.rev_app s1 s2 = String.rev s1 +:+ s2.
Proof.
  revert s2. induction s1 as [|c s1 IH]; intros s2; [done |].
  unfold String.rev. simpl. rewrite (IH (String c s2)), (IH (String c "")).
  by rewrite append_assoc.
Qed.

Lemma rev_cons c (s : string) :
  String.rev (String c s) = String.rev s +:+ String c "".
Proof. unfold String.rev at 1. simpl. apply rev_app_append. Qed.

Lemma rev_append (s1 s2 : string) :
  String.rev (s1 +:+ s2) = String.rev s2 +:+ String.rev s1.
Proof.
  induction s1 as [|c s1 IH].
  - simpl. by rewrite append_nil_r.
  - change (String c s1 +:+ s2) with (String c (s1 +:+ s2)).
    by rewrite !rev_cons, IH, append_assoc.
Qed.

Lemma rev_involutive (s : string) : String.rev (String.rev s) = s.
Proof.
  induction s as [|c s IH]; [done |].
  by rewrite rev_cons, rev_append, IH.
Qed.

Lemma lstrip_clean s : starts_clean (Str.lstrip s) = true.
Proof.
  induction s as [|c s IH]; [done |]. simpl.
  destruct (Str.isspace c) eqn:Hc; [done |]. simpl. by rewrite Hc.
Qed.

Lemma lstrip_keeps_last s c :
  Str.isspace c = false →
  ∃ u, Str.lstrip (s +:+ String c "") = u +:+ String c "".
Proof.
  intros Hc. induction s as [|a s IH].
  - exists "". simpl. by rewrite Hc.
  - change (String a s +:+ String c "") with (String a (s +:+ String c "")).
    simpl. destruct (Str.isspace a); [done |].
    by exists (String a s).
Qed.

Lemma rstrip_clean s :
  starts_clean s = true → starts_clean (Str.rstrip s) = true.
Proof.
  destruct s as [|c s]; [done |]. simpl. intros Hc%negb_true_iff.
  unfold Str.rstrip. rewrite rev_cons.
  destruct (lstrip_keeps_last (String.rev s) c Hc) as [u ->].
  rewrite rev_append. simpl. by rewrite Hc.
Qed.

Lemma strip_is_trimmed s : is_trimmed (Str.strip s) = true.
Proof.
  unfold is_trimmed, Str.strip. apply andb_true_intro. split.
  - apply rstrip_clean, lstrip_clean.
  - unfold Str.rstrip. rewrite rev_involutive. apply lstrip_clean.
Qed.

(** X2.  In everything an extraction returns, the title and the description
    of every book are trimmed: neither starts nor ends with a blank. *)
Theorem books_are_trimmed soup cats :
  extract soup = Returns cats →
  Forall (λ c, Forall (λ b, is_trimmed (title b) = true
                            ∧ is_trimmed (description b) = true) (books c))
         cats.
Proof.
  intros (div_elements & _ & Hcats)%extract_Returns.
  apply Forall_forall. intros c Hc.
  apply list_elem_of_lookup in Hc as [i Hi].
  destruct (Forall2_lookup_r _ _ _ _ _ Hcats Hi) as (block & _ & Hblock).
  destruct Hblock as (h2 & _ & _ & Hbooks).
  apply Forall_forall. intros b Hb.
  apply list_elem_of_lookup in Hb as [j Hj].
  destruct (Forall2_lookup_r _ _ _ _ _ Hbooks Hj) as (pe & _ & Hbook).
  destruct Hbook as (h3 & p & _ & _ & _ & _ & _ & _ & _ & _ & -> & ->).
  split; apply strip_is_trimmed.
Qed.

Lemma books_are_trimmed_witness :
  Forall (λ c, Forall (λ b, is_trimmed (title b) = true
                            ∧ is_trimmed (description b) = true) (books c))
         Sample.fiction_data.
Proof.
  apply (books_are_trimmed (Sample.document Sample.fiction)).
  vm_compute. reflexivity.
Defined.

(** ** Addresses and requests *)

Lemma ord2ymd_ymd2ord y m d :
  Calendar.valid_ymd y m d = true →
  Calendar.ord2ymd (Calendar.ymd2ord y m d) = (y, m, d).
Proof.
  intros Hvalid.
  pose proof (CalendarFacts.ymd2ord_range y m d Hvalid) as Hrange.
  pose proof (CalendarFacts.ord2ymd_spec _ Hrange) as Hspec.
  destruct (Calendar.ord2ymd _) as [[y' m'] d']. destruct Hspec as [Hv Ho].
  destruct (CalendarFacts.ymd2ord_inj _ _ _ _ _ _ Hv Hvalid Ho) as (-> & -> & ->).
  done.
Qed.

Lemma datetime_sub_Returns date delta earlier :
  datetime_sub date delta = Returns earlier →
  (1 ≤ toordinal date - delta ≤ Calendar.MAXORDINAL)%Z
  ∧ valid_date earlier = true
  ∧ toordinal earlier = (toordinal date - delta)%Z
  ∧ hour earlier = hour date ∧ minute earlier = minute date
  ∧ second earlier = second date ∧ microsecond earlier = microsecond date.
Proof.
  unfold datetime_sub.
  destruct (Z.ltb_spec 0 (toordinal date - delta)); [| done].
  destruct (Z.leb_spec (toordinal date - delta) Calendar.MAXORDINAL); [| done].
  simpl.
  pose proof (CalendarFacts.ord2ymd_spec (toordinal date - delta)
                ltac:(lia)) as Hspec.
  destruct (Calendar.ord2ymd _) as [[y m] d]. destruct Hspec as [Hv Ho].
  intros [= <-]. split; [lia | done].
Qed.

Lemma datetime_sub_same_day date1 date2 delta1 delta2 :
  (toordinal date1 - delta1 = toordinal date2 - delta2)%Z →
  hour date1 = hour date2 → minute date1 = minute date2 →
  second date1 = second date2 → microsecond date1 = microsecond date2 →
  datetime_sub date1 delta1 = datetime_sub date2 delta2.
Proof.
  intros Hday Hh Hm Hs Hu. unfold datetime_sub. by rewrite Hday, Hh, Hm, Hs, Hu.
Qed.

Lemma build_url_eq week date :
  build_url week date
  = (weeks_back ← (delta ← timedelta (7 * week); datetime_sub date delta);
     mret ("https://www.nytimes.com/books/best-sellers/"
           +:+ strftime_Ymd weeks_back +:+ "/")).
Proof. unfold build_url. by destruct (timedelta _). Qed.

Lemma build_url_error week date e :
  build_url week date = Raises e → e = OverflowError.
Proof.
  unfold build_url, timedelta, datetime_sub.
  repeat case_match; simpl; repeat case_match; by intros [=].
Qed.

Lemma prefix_append (s t : string) : String.prefix s (s +:+ t) = true.
Proof.
  induction s as [|c s IH]; [by destruct t |].
  change (String c s +:+ t) with (String c (s +:+ t)). simpl.
  by destruct (ascii_dec c c).
Qed.

(** X3.  Scraping a week sends at most one request.  A request goes to an
    address below the best-sellers path and waits at most 5 units of time.
    When the address cannot be computed, the exception is [OverflowError]
    and nothing at all is sent. *)
Theorem week_requests network html_parser week date :
  let result := scrape_best_seller network html_parser week date in
  length (requests result) ≤ 1
  ∧ Forall (λ q, timeout q = 5%Z
                 ∧ String.prefix "https://www.nytimes.com/books/best-sellers/"
                                 (url q) = true)
           (requests result)
  ∧ match build_url week date with
    | Returns page_url =>
        requests result = [{| url := page_url; timeout := 5 |}]
    | Raises e =>
        e = OverflowError ∧ requests result = []
        ∧ outcome result = Raises OverflowError
    end.
Proof.
  intros result. unfold result.
  rewrite scrape_best_seller_requests, scrape_best_seller_outcome.
  destruct (build_url week date) as [page_url|e] eqn:Hurl; simpl.
  - split_and!; [lia | | done].
    apply Forall_singleton. split; [done |]. simpl.
    rewrite build_url_eq in Hurl.
    apply bind_Returns in Hurl as (weeks_back & _ & [= <-]).
    apply prefix_append.
  - apply build_url_error in Hurl as ->. split_and!; [lia | constructor | done..].
Qed.

(** X4.  The page of week 0 is the page of the reference date itself: the
    base path, then the date with its year as [%Y] writes it (without padding,
    so on fewer than four digits before year 1000), and a [/]. *)
Theorem week_zero_is_reference_date date :
  valid_date date = true →
  build_url 0 date
  = Returns ("https://www.nytimes.com/books/best-sellers/"
             +:+ strftime_Ymd date +:+ "/").
Proof.
  intros Hvalid. rewrite build_url_eq. simpl. unfold datetime_sub.
  pose proof (CalendarFacts.ymd2ord_range _ _ _ Hvalid) as Hrange.
  fold (toordinal date) in Hrange. rewrite Z.sub_0_r.
  destruct (Z.ltb_spec 0 (toordinal date)); [| lia].
  destruct (Z.leb_spec (toordinal date) Calendar.MAXORDINAL); [| lia].
  simpl. unfold toordinal. rewrite ord2ymd_ymd2ord by done.
  by destruct date.
Qed.

Lemma week_zero_is_reference_date_witness :
  build_url 0 Sample.today
  = Returns ("https://www.nytimes.com/books/best-sellers/"
             +:+ strftime_Ymd Sample.today +:+ "/").
Proof.
  apply (week_zero_is_reference_date Sample.today). vm_compute. reflexivity.
Defined.

(** X5.  Weeks add up: the page of week [j + k] counted from a date is the
    page of week [j] counted from the day [7 * k] days earlier, and it has
    no address in the one case exactly when it has none in the other. *)
Theorem weeks_add_up date earlier j k :
  valid_date date = true →
  (0 ≤ j)%Z → (0 ≤ k)%Z →
  datetime_sub date (7 * k) = Returns earlier →
  build_url (j + k) date = build_url j earlier.
Proof.
  intros Hvalid Hj Hk Hsub.
  pose proof (CalendarFacts.ymd2ord_range _ _ _ Hvalid) as Hrange.
  fold (toordinal date) in Hrange. unfold Calendar.MAXORDINAL in Hrange.
  apply datetime_sub_Returns in Hsub
    as (Hin & _ & Hord & Hh & Hm & Hs & Hu).
  unfold Calendar.MAXORDINAL in Hin.
  rewrite !build_url_eq. f_equal. unfold timedelta.
  destruct (Z.leb_spec (Z.abs (7 * (j + k))) 999999999) as [Hjk|Hjk];
    destruct (Z.leb_spec (Z.abs (7 * j)) 999999999) as [Hj'|Hj']; simpl.
  - apply datetime_sub_same_day; try done. lia.
  - lia.
  - unfold datetime_sub.
    destruct (Z.ltb_spec 0 (toordinal earlier - 7 * j)); [lia | done].
  - done.
Qed.

Lemma weeks_add_up_witness :
  build_url (1 + 2) Sample.today
  = build_url 1 (Datetime 2024 10 20 0 0 0 0).
Proof.
  apply (weeks_add_up Sample.today (Datetime 2024 10 20 0 0 0 0) 1 2).
  - vm_compute. reflexivity.
  - lia.
  - lia.
  - vm_compute. reflexivity.
Defined.

Lemma append_inj_l (s t1 t2 : string) : s +:+ t1 = s +:+ t2 → t1 = t2.
Proof.
  induction s as [|c s IH]; [done |].
  change (String c (s +:+ t1) = String c (s +:+ t2) → t1 = t2).
  intros [= H]. by apply IH.
Qed.

Lemma append_inj_length (s1 s2 t1 t2 : string) :
  String.length s1 = String.length s2 →
  s1 +:+ t1 = s2 +:+ t2 → s1 = s2 ∧ t1 = t2.
Proof.
  revert s2. induction s1 as [|c s1 IH]; intros [|c' s2] Hlen; simpl in Hlen;
    try done.
  change (String c (s1 +:+ t1) = String c' (s2 +:+ t2) →
          String c s1 = String c' s2 ∧ t1 = t2).
  intros [= -> H]. destruct (IH s2 ltac:(lia) H) as [-> ->]. done.
Qed.

Lemma digits_until_slash (s1 s2 t1 t2 : string) acc1 acc2 n1 n2 :
  read_digits s1 acc1 = Some n1 → read_digits s2 acc2 = Some n2 →
  s1 +:+ "/" +:+ t1 = s2 +:+ "/" +:+ t2 → s1 = s2 ∧ t1 = t2.
Proof.
  revert s2 acc1 acc2.
  induction s1 as [|c s1 IH]; intros [|c' s2] acc1 acc2 H1 H2.
  - change (String "/" t1 = String "/" t2 → "" = "" ∧ t1 = t2).
    intros [= H]. by rewrite H.
  - change ("/" +:+ t1 = String c' (s2 +:+ "/" +:+ t2) → "" = String c' s2 ∧ t1 = t2).
    intros [= <- _]. simpl in H2. discriminate.
  - change (String c (s1 +:+ "/" +:+ t1) = "/" +:+ t2 → String c s1 = "" ∧ t1 = t2).
    intros [= -> _]. simpl in H1. discriminate.
  - change (String c (s1 +:+ "/" +:+ t1) = String c' (s2 +:+ "/" +:+ t2) →
            String c s1 = String c' s2 ∧ t1 = t2).
    intros [= -> H]. simpl in H1, H2.
    destruct (Strptime.is_digit c'); [| discriminate].
    destruct (IH _ _ _ H1 H2 H) as [-> ->]. done.
Qed.

Lemma strftime_Ymd_inj date1 date2 :
  valid_date date1 = true → valid_date date2 = true →
  strftime_Ymd date1 = strftime_Ymd date2 →
  year date1 = year date2 ∧ month date1 = month date2
  ∧ day date1 = day date2.
Proof.
  intros Hv1 Hv2. unfold strftime_Ymd.
  assert (Hfields : ∀ date, valid_date date = true →
            (1 ≤ year date < 10000 ∧ 0 ≤ month date < 100
             ∧ 0 ≤ day date < 100)%Z).
  { intros date (Hy & Hm & Hd)%CalendarFacts.valid_ymd_inv.
    rewrite CalendarFacts.days_in_month_leap in Hd.
    assert (Calendar.DAYS_IN_MONTH (month date) ≤ 31)%Z.
    { assert (month date = 1 ∨ month date = 2 ∨ month date = 3
              ∨ month date = 4 ∨ month date = 5 ∨ month date = 6
              ∨ month date = 7 ∨ month date = 8 ∨ month date = 9
              ∨ month date = 10 ∨ month date = 11 ∨ month date = 12)%Z
        as Hc by lia.
      destruct_or! Hc; rewrite Hc; simpl; lia. }
    destruct (_ && _) in Hd; lia. }
  destruct (Hfields _ Hv1) as (Hy1 & Hm1 & Hd1).
  destruct (Hfields _ Hv2) as (Hy2 & Hm2 & Hd2).
  destruct (pretty_year _ Hy1) as (Hry1 & _ & _).
  destruct (pretty_year _ Hy2) as (Hry2 & _ & _).
  destruct (zfill_month_day _ Hm1) as [Hlm1 Hrm1].
  destruct (zfill_month_day _ Hm2) as [Hlm2 Hrm2].
  destruct (zfill_month_day _ Hd1) as [Hld1 Hrd1].
  destruct (zfill_month_day _ Hd2) as [Hld2 Hrd2].
  intros (Hy & H)%(digits_until_slash _ _ _ _ _ _ _ _ Hry1 Hry2).
  apply append_inj_length in H as (Hm & H); [| congruence].
  apply (append_inj_l "/") in H.
  rewrite Hy in Hry1. rewrite Hm in Hrm1. rewrite H in Hrd1.
  split_and!; congruence.
Qed.

Lemma append_slash_inj (s t : string) : s +:+ "/" = t +:+ "/" → s = t.
Proof.
  revert t. induction s as [|c s IH]; intros [|c' t]; simpl; try done.
  - by destruct t.
  - by destruct s.
  - intros [= -> H]. f_equal. by apply IH.
Qed.

Lemma build_url_inj date week1 week2 page_url :
  build_url week1 date = Returns page_url →
  build_url week2 date = Returns page_url →
  week1 = week2.
Proof.
  rewrite !build_url_eq. unfold timedelta.
  intros (h1 & H1 & [= <-])%bind_Returns (h2 & H2 & [= Hsame])%bind_Returns.
  destruct (Z.abs (7 * week1) <=? 999999999)%Z; [| done].
  destruct (Z.abs (7 * week2) <=? 999999999)%Z; [| done].
  simpl in H1, H2.
  apply datetime_sub_Returns in H1 as (_ & Hv1 & Ho1 & _).
  apply datetime_sub_Returns in H2 as (_ & Hv2 & Ho2 & _).
  apply append_inj_l, append_slash_inj in Hsame.
  destruct (strftime_Ymd_inj h2 h1 Hv2 Hv1 Hsame) as (Hy & Hm & Hd).
  unfold toordinal in Ho1, Ho2. rewrite Hy, Hm, Hd in Ho2. lia.
Qed.

(** X6.  Two different weeks never share an address: counted from the same
    date, the addresses of two different weeks are different. *)
Theorem weeks_have_their_own_address date week1 week2 url1 url2 :
  week1 ≠ week2 →
  build_url week1 date = Returns url1 →
  build_url week2 date = Returns url2 →
  url1 ≠ url2.
Proof.
  intros Hweeks H1 H2 <-. by apply Hweeks, (build_url_inj date _ _ url1).
Qed.

Lemma weeks_have_their_own_address_witness :
  "https://www.nytimes.com/books/best-sellers/2024/10/27/"
  ≠ "https://www.nytimes.com/books/best-sellers/2024/10/20/".
Proof.
  apply (weeks_have_their_own_address Sample.today 1 2).
  - lia.
  - vm_compute. reflexivity.
  - vm_compute. reflexivity.
Defined.

(** ** The reference date and the 105 weeks *)

Lemma strptime_Returns s date :
  strptime_B_d_Y s = Returns date →
  valid_date date = true
  ∧ hour date = 0%Z ∧ minute date = 0%Z ∧ second date = 0%Z
  ∧ microsecond date = 0%Z.
Proof.
  unfold strptime_B_d_Y, Strptime.parse.
  destruct (Strptime.read_month _ _ _) as [[m s1]|]; simpl; [| done].
  destruct (Strptime.read_blanks s1) as [s2|]; simpl; [| done].
  destruct (Strptime.read_day s2) as [[d s3]|]; simpl; [| done].
  destruct (Strptime.read_blanks s3) as [s4|]; simpl; [| done].
  destruct (Strptime.read_year s4) as [y|]; simpl; [| done].
  destruct (Calendar.valid_ymd y m d) eqn:Hvalid; [| done].
  by intros [= <-].
Qed.

Lemma all_weeks_range w : w ∈ all_weeks ↔ (0 ≤ w ≤ 104)%Z.
Proof.
  unfold all_weeks. rewrite list_elem_of_fmap. split.
  - intros (k & -> & Hk%elem_of_seq). lia.
  - intros Hw. exists (Z.to_nat w). split; [lia |]. apply elem_of_seq. lia.
Qed.

Lemma build_url_raised week date :
  valid_date date = true → (0 ≤ week)%Z →
  raised (build_url week date) = false ↔ (1 ≤ toordinal date - 7 * week)%Z.
Proof.
  intros Hvalid Hweek.
  pose proof (CalendarFacts.ymd2ord_range _ _ _ Hvalid) as Hrange.
  fold (toordinal date) in Hrange. unfold Calendar.MAXORDINAL in Hrange.
  rewrite build_url_eq. unfold timedelta, datetime_sub, Calendar.MAXORDINAL.
  destruct (Z.leb_spec (Z.abs (7 * week)) 999999999); simpl; [| split; [done | lia]].
  destruct (Z.ltb_spec 0 (toordinal date - 7 * week)); simpl;
    [| split; [done | lia]].
  destruct (Z.leb_spec (toordinal date - 7 * week) 3652059); simpl; [| lia].
  destruct (Calendar.ord2ymd _) as [[y m] d]. simpl. split; [lia | done].
Qed.

(** X7.  A reference date that was resolved is a date of the calendar at
    midnight.  Each of the 105 weeks has an address exactly when the date is
    not before 30 December of year 2 (day 729 of the calendar): from any later
    date, no week fails on the date arithmetic. *)
Theorem resolved_date network html_parser date :
  outcome (get_main_date network html_parser) = Returns date →
  valid_date date = true
  ∧ hour date = 0%Z ∧ minute date = 0%Z ∧ second date = 0%Z
  ∧ microsecond date = 0%Z
  ∧ ((∀ w, w ∈ all_weeks → raised (build_url w date) = false)
     ↔ (729 ≤ toordinal date)%Z).
Proof.
  rewrite get_main_date_outcome.
  intros (response & _ & H)%bind_Returns. revert H.
  destruct (status_code _ =? 200)%Z; [| done].
  intros (time_elements & _ & Hdate)%bind_Returns.
  apply strptime_Returns in Hdate as (Hvalid & Hh & Hm & Hs & Hu).
  split_and!; try done. split.
  - intros Hall. specialize (Hall 104%Z ltac:(apply all_weeks_range; lia)).
    apply build_url_raised in Hall; [lia | done | lia].
  - intros Hday w Hw%all_weeks_range. apply build_url_raised; [done | lia | lia].
Qed.

Lemma resolved_date_witness :
  valid_date Sample.today = true
  ∧ hour Sample.today = 0%Z ∧ minute Sample.today = 0%Z
  ∧ second Sample.today = 0%Z ∧ microsecond Sample.today = 0%Z
  ∧ ((∀ w, w ∈ all_weeks → raised (build_url w Sample.today) = false)
     ↔ (729 ≤ toordinal Sample.today)%Z).
Proof.
  apply (resolved_date Sample.network Sample.html_parser Sample.today).
  vm_compute. reflexivity.
Defined.

(** X8.  When the program has a result to print, the reference date was
    resolved and the result has 105 entries, none of them empty: entry [w] is
    what scraping week [w] from that date returned, and it carries the week
    number [w], for [w] from 0 to 104 in this order. *)
Theorem main_prints_105_weeks network html_parser cpu_count completion
    results :
  1 ≤ cpu_count →
  Pool.complete cpu_count all_weeks completion →
  main network html_parser cpu_count completion = Some (Returns results) →
  ∃ current_date rs,
    outcome (get_main_date network html_parser) = Returns current_date
    ∧ results = Some <$> rs
    ∧ length rs = 105
    ∧ week <$> rs = all_weeks
    ∧ Forall2 (λ w r, task network html_parser current_date w = Returns r)
              all_weeks rs.
Proof.
  intros Hcpu Hcomplete. unfold main, run.
  destruct (outcome (get_main_date network html_parser))
    as [current_date|e]; [| done].
  intros (rs & Hrs & ->)%map_Returns; [| done | done].
  exists current_date, rs. split_and!; try done.
  - by rewrite <- (Forall2_length _ _ _ Hrs).
  - by eapply tasks_weeks.
Qed.

Lemma main_prints_105_weeks_witness :
  ∃ current_date rs,
    outcome (get_main_date Archive.network Sample.html_parser)
    = Returns current_date
    ∧ Archive.expected = Some <$> rs
    ∧ length rs = 105
    ∧ week <$> rs = all_weeks
    ∧ Forall2 (λ w r, task Archive.network Sample.html_parser current_date w
                      = Returns r)
              all_weeks rs.
Proof.
  apply (main_prints_105_weeks Archive.network Sample.html_parser 2
           [7; 6; 5; 4; 3; 2; 1; 0] Archive.expected).
  - lia.
  - unfold Pool.complete.
    change (seq 0 (Pool.chunk_count 2 all_weeks)) with (rev [7;6;5;4;3;2;1;0]).
    apply Permutation_rev.
  - vm_compute. reflexivity.
Defined.

(** ** More on the pool *)

Section PoolOrder.

Context {A B : Type} (func : A → Result B).







Lemma get_tasks_concat size (l : list A) fuel :
  0 < size → length l < fuel → concat (Pool.get_tasks size l fuel) = l.
Proof.
  intros Hsize. revert l. induction fuel as [|fuel IH]; intros l Hfuel;
    [lia |].
  cbn [Pool.get_tasks]. destruct (take size l) as [|x chunk] eqn:Htake.
  - destruct (take_nil_inv _ _ Htake) as [? | ->]; [lia | done].
  - rewrite <- Htake. assert (0 < length l).
    { destruct l; [by rewrite take_nil in Htake | simpl; lia]. }
    simpl. rewrite IH by (rewrite length_drop; lia).
    apply take_drop.
Qed.

End PoolOrder.

(** X9.  The run has no outcome, not even an exception, as long as a chunk
    is outstanding: a week that has failed is reported only once every chunk
    has come back. *)
Theorem run_waits_for_every_chunk network html_parser current_date weeks
    processes completion :
  1 ≤ processes →
  weeks ≠ [] →
  Forall (λ i, i < Pool.chunk_count processes weeks) completion →
  length completion < Pool.chunk_count processes weeks →
  run network html_parser current_date weeks processes completion = None.
Proof.
  intros Hp Hweeks Hall Hfew. unfold run, Pool.map, Pool.chunk_count in *.
  destruct (Nat.ltb_spec processes 1); [lia |].
  assert (Hlen : 0 < length weeks) by (destruct weeks; [done | simpl; lia]).
  set (c := Pool.get_chunksize (length weeks) processes) in *.
  assert (Hc : 0 < c) by by apply get_chunksize_pos.
  pose proof (delivered_all (task network html_parser current_date) weeks c
                Hc [] _ completion Hall
                (delivered_init _ weeks c Hc Hlen)) as Hinv.
  change ([] ++ completion) with completion in Hinv.
  destruct Hinv as (_ & _ & Hready & _).
  unfold Pool.get. rewrite Hready.
  by rewrite bool_decide_eq_false_2 by lia.
Qed.

Lemma run_waits_for_every_chunk_witness :
  run Sample.network Sample.html_parser Sample.today [0; 1; 2; 3; 4]%Z 1
      [1; 0]
  = None.
Proof.
  apply (run_waits_for_every_chunk Sample.network Sample.html_parser
           Sample.today [0; 1; 2; 3; 4]%Z 1 [1; 0]).
  - lia.
  - done.
  - change (Pool.chunk_count 1 [0%Z; 1%Z; 2%Z; 3%Z; 4%Z]) with 3.
    repeat constructor.
  - change (Pool.chunk_count 1 [0%Z; 1%Z; 2%Z; 3%Z; 4%Z]) with 3. simpl. lia.
Defined.



(** X11.  The chunks are a cut of the list of weeks: put end to end in
    their order they give back the list, no chunk is empty or longer than the
    chunk size, and there are at most four chunks per process. *)
Theorem chunks_cut_the_weeks (weeks : list Z) processes :
  1 ≤ processes →
  let chunksize := Pool.get_chunksize (length weeks) processes in
  let task_batches := Pool.get_tasks chunksize weeks (S (length weeks)) in
  concat task_batches = weeks
  ∧ Forall (λ chunk, 0 < length chunk ≤ chunksize) task_batches
  ∧ length task_batches ≤ 4 * processes.
Proof.
  intros Hp chunksize task_batches.
  destruct (decide (weeks = [])) as [->|Hweeks].
  { unfold task_batches, chunksize. simpl. split_and!; [done | constructor | lia]. }
  assert (Hlen : 0 < length weeks) by (destruct weeks; [done | simpl; lia]).
  assert (Hc : 0 < chunksize) by by apply get_chunksize_pos.
  split_and!.
  - apply get_tasks_concat; [done | lia].
  - apply Forall_lookup. intros i chunk Hi. unfold task_batches in Hi.
    rewrite get_tasks_lookup in Hi by lia.
    destruct (decide _); [| done]. injection Hi as <-.
    rewrite length_take, length_drop. lia.
  - unfold task_batches. rewrite chunk_count_eq by done.
    assert (Hcover : length weeks ≤ chunksize * (processes * 4)).
    { unfold chunksize, Pool.get_chunksize.
      destruct (Nat.eqb_spec (length weeks) 0); [lia |].
      pose proof (Nat.div_mod_eq (length weeks) (processes * 4)).
      pose proof (Nat.mod_upper_bound (length weeks) (processes * 4)).
      destruct (Nat.eqb_spec (length weeks mod (processes * 4)) 0); nia. }
    pose proof (Nat.div_mod_eq (length weeks) chunksize).
    pose proof (Nat.mod_upper_bound (length weeks) chunksize).
    destruct (Nat.eqb_spec (length weeks mod chunksize) 0); nia.
Qed.

Lemma chunks_cut_the_weeks_witness :
  let chunksize := Pool.get_chunksize (length all_weeks) 2 in
  let task_batches := Pool.get_tasks chunksize all_weeks (S (length all_weeks)) in
  concat task_batches = all_weeks
  ∧ Forall (λ chunk, 0 < length chunk ≤ chunksize) task_batches
  ∧ length task_batches ≤ 4 * 2.
Proof. apply (chunks_cut_the_weeks all_weeks 2). lia. Defined.

(** X12.  A run over no week at all returns the empty list at once: it does
    not wait for any chunk. *)
Theorem run_of_no_week network html_parser current_date processes completion :
  1 ≤ processes →
  run network html_parser current_date [] processes completion
  = Some (Returns []).
Proof.
  intros Hp. unfold run, Pool.map. destruct (Nat.ltb_spec processes 1); [lia |].
  simpl. induction completion as [|i completion IH]; [done |].
  simpl. unfold Pool.deliver at 2. by rewrite lookup_nil.
Qed.

Lemma run_of_no_week_witness :
  run Sample.network Sample.html_parser Sample.today [] 3 [0; 1]
  = Some (Returns []).
Proof. apply run_of_no_week. lia. Defined.
